(** * crypto-trade-bot: the decision-and-execution engine of [main.py]

    A shallow embedding of [CryptoTradeBot] (indicator computation, order
    execution, the trading cycle) and the properties of its specification.

    Numbers.  Python and pandas compute on IEEE-754 doubles.  The embedding
    keeps the part of that arithmetic the properties depend on: the special
    values (NaN, the two infinities) and the way they propagate through
    [+ - * /] and the comparisons.  Finite values are exact rationals, so
    rounding error, overflow and the sign of zero are outside the model. *)

From Stdlib Require Import ZArith QArith Qpower Qround Qabs Lqa Lia.
From stdpp Require Import base option list strings gmap.

Open Scope Q_scope.

(** ** Floating-point values *)

Inductive fl : Type :=
| Fin (q : Q)
| PInf
| NInf
| NaN.

Definition Qltb (x y : Q) : bool :=
  match x ?= y with Lt => true | _ => false end.
Definition Qleb (x y : Q) : bool :=
  match x ?= y with Gt => false | _ => true end.
Definition Qeqb (x y : Q) : bool :=
  match x ?= y with Eq => true | _ => false end.

Module Fl.

Definition neg (x : fl) : fl :=
  match x with
  | Fin q => Fin (- q)
  | PInf => NInf
  | NInf => PInf
  | NaN => NaN
  end.

Definition add (x y : fl) : fl :=
  match x, y with
  | NaN, _ | _, NaN => NaN
  | Fin a, Fin b => Fin (a + b)
  | PInf, NInf | NInf, PInf => NaN
  | PInf, _ | _, PInf => PInf
  | NInf, _ | _, NInf => NInf
  end.

Definition sub (x y : fl) : fl := add x (neg y).

(** The sign of a finite value: [Lt] negative, [Eq] zero, [Gt] positive. *)
Definition sign (q : Q) : comparison := q ?= 0.

Definition signed_inf (s : comparison) : fl :=
  match s with Lt => NInf | Eq => NaN | Gt => PInf end.

Definition flip (s : comparison) : comparison := CompOpp s.

Definition mul (x y : fl) : fl :=
  match x, y with
  | NaN, _ | _, NaN => NaN
  | Fin a, Fin b => Fin (a * b)
  | Fin a, PInf | PInf, Fin a => signed_inf (sign a)
  | Fin a, NInf | NInf, Fin a => signed_inf (flip (sign a))
  | PInf, PInf | NInf, NInf => PInf
  | PInf, NInf | NInf, PInf => NInf
  end.

(** numpy's true division of doubles: [x / 0] is an infinity with the sign
    of [x], [0 / 0] is NaN, nothing is raised. *)
Definition div (x y : fl) : fl :=
  match x, y with
  | NaN, _ | _, NaN => NaN
  | Fin a, Fin b =>
      if Qeqb b 0 then signed_inf (sign a) else Fin (a / b)
  | Fin _, PInf | Fin _, NInf => Fin 0
  | PInf, Fin b => if Qltb b 0 then NInf else PInf
  | NInf, Fin b => if Qltb b 0 then PInf else NInf
  | PInf, PInf | PInf, NInf | NInf, PInf | NInf, NInf => NaN
  end.

(** Comparisons: every comparison with NaN is false. *)
Definition lt (x y : fl) : bool :=
  match x, y with
  | NaN, _ | _, NaN => false
  | Fin a, Fin b => Qltb a b
  | Fin _, PInf | NInf, Fin _ | NInf, PInf => true
  | Fin _, NInf | PInf, _ | NInf, NInf => false
  end.

Definition le (x y : fl) : bool :=
  match x, y with
  | NaN, _ | _, NaN => false
  | Fin a, Fin b => Qleb a b
  | NInf, _ | Fin _, PInf | PInf, PInf => true
  | Fin _, NInf | PInf, Fin _ | PInf, NInf => false
  end.

Definition gt (x y : fl) : bool := lt y x.
Definition ge (x y : fl) : bool := le y x.

Definition isnan (x : fl) : bool :=
  match x with NaN => true | _ => false end.

Definition finite (x : fl) : option Q :=
  match x with Fin q => Some q | _ => None end.

End Fl.

Abbreviation series := (list fl).

(** ** pandas Series operations used by the indicators *)

(** [s.diff()]: first element NaN, then the difference with the previous
    element. *)
Fixpoint diff_from (prev : fl) (s : series) : series :=
  match s with
  | [] => []
  | x :: s' => Fl.sub x prev :: diff_from x s'
  end.

Definition diff (s : series) : series :=
  match s with
  | [] => []
  | x :: s' => NaN :: diff_from x s'
  end.

(** [s.mask(cond, other)]: replace by [other] where [cond] holds. *)
Definition mask (cond : fl -> bool) (other : fl) (s : series) : series :=
  (fun x => if cond x then other else x) <$> s.

(** The window of [w] entries ending at index [i] (entries [i-w+1 .. i]). *)
Definition window (w : nat) (s : series) (i : nat) : series :=
  take w (drop (S i - w) s).

(** The finite values of a window, if all of them are finite.  A rolling
    aggregation skips NaN (and treats infinities as NaN); with the default
    [min_periods = window] one missing entry makes the result NaN. *)
Fixpoint all_finite (s : series) : option (list Q) :=
  match s with
  | [] => Some []
  | x :: s' =>
      match Fl.finite x, all_finite s' with
      | Some q, Some qs => Some (q :: qs)
      | _, _ => None
      end
  end.

(** [s.rolling(window=w).agg()]: NaN until [w] observations are there. *)
Definition rolling (w : nat) (agg : list Q -> fl) (s : series) : series :=
  imap (fun i _ =>
          if (w <=? S i)%nat then
            match all_finite (window w s i) with
            | Some qs => agg qs
            | None => NaN
            end
          else NaN) s.

Definition Qsum (qs : list Q) : Q := foldr Qplus 0 qs.

Definition Qlen (qs : list Q) : Q := inject_Z (Z.of_nat (length qs)).

Definition mean (qs : list Q) : fl :=
  match qs with
  | [] => NaN
  | _ => Fin (Qsum qs / Qlen qs)
  end.

Definition rolling_mean (w : nat) (s : series) : series := rolling w mean s.

Definition Qsqr (x : Q) : Q := x * x.

(** Sample variance ([ddof = 1]), the square of what [rolling(...).std()]
    returns; undefined on fewer than two observations. *)
Definition sample_variance (qs : list Q) : option Q :=
  match qs with
  | [] | [_] => None
  | _ =>
      let m := Qsum qs / Qlen qs in
      Some (Qsum (map (fun x => Qsqr (x - m)) qs) / (Qlen qs - 1))
  end.

(** ** Exceptions and the state-and-exception monad *)

Inductive exn : Type :=
| BinanceAPIException
| BinanceRequestException
| NameError
| ZeroDivisionError
| ValueError
| KeyError
| IndexError
| StopIteration
| OtherException.

Inductive result (A : Type) : Type :=
| Ok (a : A)
| Raise (e : exn).
Arguments Ok {A} a.
Arguments Raise {A} e.

(** A computation reads and updates a state [S]; when it raises, the state
    reached so far is kept (Python does not roll anything back). *)
Definition M (S A : Type) : Type := S -> result A * S.

Definition ret {S A} (a : A) : M S A := fun s => (Ok a, s).

Definition raise {S A} (e : exn) : M S A := fun s => (Raise e, s).

Definition bind {S A B} (m : M S A) (k : A -> M S B) : M S B :=
  fun s =>
    match m s with
    | (Ok a, s') => k a s'
    | (Raise e, s') => (Raise e, s')
    end.

Definition get {S} : M S S := fun s => (Ok s, s).

Definition modify {S} (f : S -> S) : M S unit := fun s => (Ok tt, f s).

Definition of_result {S A} (r : result A) : M S A := fun s => (r, s).

Notation "'let*' x ':=' m 'in' k" := (bind m (fun x => k))
  (at level 10, x name, m at level 100, k at level 200,
   format "'let*'  x  ':='  m  'in' '//' k").
Notation "m ';;;' k" := (bind m (fun _ => k))
  (at level 100, k at level 200, right associativity,
   format "m  ';;;' '//' k").

(** ** DataFrames

    A DataFrame is a mutable object: a column assignment [data[c] = s]
    changes the object every holder of the reference sees.  Frames live in a
    store, and the indicator functions receive a reference into it. *)

Abbreviation frame := (gmap string series).
Abbreviation loc := positive.
Abbreviation heap := (gmap loc frame).

(** [data[c]] *)
Definition get_col (data : loc) (c : string) : M heap series :=
  fun h =>
    match (h !!! data) !! c with
    | Some s => (Ok s, h)
    | None => (Raise KeyError, h)
    end.

(** [data[c] = s] *)
Definition set_col (data : loc) (c : string) (s : series) : M heap unit :=
  modify (fun h => <[data := <[c := s]> (h !!! data)]> h).

(** [len(data)]: the number of rows, the length of any column. *)
Definition frame_len (d : frame) : nat :=
  match d !! "close" with
  | Some s => length s
  | None => 0
  end.

(** ** Indicators *)

Definition rsi_gain (close : series) : series :=
  mask (fun d => Fl.lt d (Fin 0)) (Fin 0) (diff close).

Definition rsi_loss (close : series) : series :=
  Fl.neg <$> mask (fun d => Fl.gt d (Fin 0)) (Fin 0) (diff close).

Definition rsi_avg_gain (close : series) (period : nat) : series :=
  rolling_mean period (rsi_gain close).

Definition rsi_avg_loss (close : series) (period : nat) : series :=
  rolling_mean period (rsi_loss close).

(** [100 - (100 / (1 + rs))] *)
Definition rsi_of_rs (rs : fl) : fl :=
  Fl.sub (Fin 100) (Fl.div (Fin 100) (Fl.add (Fin 1) rs)).

Definition rsi_series (close : series) (period : nat) : series :=
  let avg_gain := rsi_avg_gain close period in
  let avg_loss := rsi_avg_loss close period in
  let rs := zip_with Fl.div avg_gain avg_loss in
  rsi_of_rs <$> rs.

Definition calculate_rsi (data : loc) (period : nat) : M heap series :=
  let* close := get_col data "close" in
  ret (rsi_series close period).

Section Bollinger.

(** numpy's square root on doubles, on the non-negative values it is
    applied to here. *)
Variable sqrt : Q -> Q.

Definition std (qs : list Q) : fl :=
  match sample_variance qs with
  | Some v => Fin (sqrt v)
  | None => NaN
  end.

Definition rolling_std (w : nat) (s : series) : series := rolling w std s.

Definition scale (k : Q) (s : series) : series :=
  (fun x => Fl.mul x (Fin k)) <$> s.

(** The four column assignments are made on the frame the caller passed;
    the reference returned is the one received. *)
Definition calculate_bollinger_bands (data : loc) (period : nat)
    (std_dev : Q) : M heap loc :=
  let* close := get_col data "close" in
  set_col data "sma" (rolling_mean period close) ;;;
  let* close := get_col data "close" in
  set_col data "std" (rolling_std period close) ;;;
  let* sma := get_col data "sma" in
  let* sd := get_col data "std" in
  set_col data "upper_band" (zip_with Fl.add sma (scale std_dev sd)) ;;;
  let* sma := get_col data "sma" in
  let* sd := get_col data "std" in
  set_col data "lower_band" (zip_with Fl.sub sma (scale std_dev sd)) ;;;
  ret data.

End Bollinger.

(** ** Python arithmetic used by the order executor *)

(** [a / b] on Python floats raises on a zero divisor. *)
Definition pydiv (a b : Q) : result Q :=
  if Qeqb b 0 then Raise ZeroDivisionError else Ok (a / b).

(** [min(a, b)]: the first of the smallest arguments. *)
Definition pymin (a b : Q) : Q := if Qltb b a then b else a.

(** [round(x)]: to the nearest integer, ties to the even one. *)
Definition round_half_even (x : Q) : Z :=
  let f := Qfloor x in
  match Qcompare (x - inject_Z f) (1 # 2) with
  | Lt => f
  | Gt => (f + 1)%Z
  | Eq => if Z.even f then f else (f + 1)%Z
  end.

(** [round(x, ndigits)]: the multiple of [10 ^ -ndigits] nearest to the
    exact value of the double [x], ties to the even one.  The double that
    [round] returns is the one nearest to this decimal: that last rounding,
    like the rounding of every operation on doubles, is not modelled, and
    the statements about quantities leave room for it. *)
Definition pyround (x : Q) (ndigits : Z) : Q :=
  inject_Z (round_half_even (x * 10 ^ ndigits)) / 10 ^ ndigits.

(** [int(round(-math.log10(s)))] for [s > 0]: the integer [n] nearest to
    [-log10 s], that is the one with [10^(2n-1) < 1/s^2 < 10^(2n+1)] (no
    rational lies on a tie).  It is found by an upward search from a lower
    bound given by the sizes of the numerator and the denominator.  The
    library computes the logarithm in doubles: the two agree unless
    [-log10 s] is within the error of [math.log10] of a half-integer, which
    no step size near a power of ten is. *)
Fixpoint find_precision (fuel : nat) (n : Z) (x : Q) : Z :=
  match fuel with
  | O => n
  | S fuel' =>
      if Qltb x (10 ^ (2 * n + 1)) then n
      else find_precision fuel' (n + 1) x
  end.

Definition digits_bound (s : Q) : Z :=
  Z.log2 (Qnum s) + Z.log2 (Zpos (Qden s)) + 1.

Definition nearest_neg_log10 (s : Q) : Z :=
  let b := digits_bound s in
  find_precision (Z.to_nat (2 * b)) (- b) (/ (s * s)).

(** [math.log10] raises [ValueError] outside its domain. *)
Definition lot_precision (step_size : Q) : result Z :=
  if Qleb step_size 0 then Raise ValueError
  else Ok (nearest_neg_log10 step_size).

(** Lines 166-167: the quantity rounded to the precision of the step. *)
Definition round_to_step (quantity step_size : Q) : result Q :=
  match lot_precision step_size with
  | Ok precision => Ok (pyround quantity precision)
  | Raise e => Raise e
  end.

(** ** The bot's state *)

Inductive side : Type := SIDE_BUY | SIDE_SELL.

Inductive tx_type : Type := BUY | SELL.

(** A transaction dict; [profit] and [profit_percent] are keys of SELL
    records only. *)
Record transaction : Type := {
  tx_type_of : tx_type;
  tx_timestamp : Z;
  tx_symbol : string;
  tx_price : Q;
  tx_quantity : Q;
  tx_value : Q;
  tx_profit : option Q;
  tx_profit_percent : option Q
}.

(** [self.position] *)
Record position : Type := {
  in_position : bool;
  quantity : Q;
  buy_price : Q
}.

Record bot : Type := {
  pos : position;
  transactions : list transaction
}.

(** [CryptoTradeBot.__init__] *)
Definition init : bot :=
  {| pos := {| in_position := false; quantity := 0; buy_price := 0 |};
     transactions := [] |}.

(** The keys of [config.json] read by the engine. *)
Record config : Type := {
  trading_pair : string;
  rsi_period : nat;
  rsi_overbought : Q;
  rsi_oversold : Q;
  bollinger_period : nat;
  bollinger_std : Q;
  min_order_value : Q;
  max_order_value : Q;
  max_loss_percent : Q
}.

(** ** The exchange client

    What the Binance client answers during one trading cycle; every call
    either returns a value or raises. *)

Record lot_filter : Type := {
  filterType : string;
  stepSize : option Q
}.

Record exchange : Type := {
  get_historical_klines : result (list (list Q));
  get_symbol_ticker : result Q;
  get_asset_balance : result Q;
  get_symbol_info : result (list lot_filter);
  create_order : side -> Q -> result unit;
  now : Z
}.

(** The effects on the outside world, in the order they happen. *)
Inductive effect : Type :=
| Called_get_historical_klines
| Called_get_symbol_ticker
| Called_get_asset_balance
| Called_get_symbol_info
| Called_create_order (s : side) (q : Q)
| Wrote_transactions (txs : list transaction).

Record world : Type := {
  self : bot;
  frames : heap;
  effects : list effect
}.

Definition set_self (f : bot -> bot) (w : world) : world :=
  {| self := f (self w); frames := frames w; effects := effects w |}.

Definition emit (e : effect) : M world unit :=
  modify (fun w =>
    {| self := self w; frames := frames w; effects := effects w ++ [e] |}).

(** A call of a client method: the call is recorded, then it returns or
    raises as the exchange decides. *)
Definition call {A} (e : effect) (r : result A) : M world A :=
  emit e ;;; of_result r.

(** Run a computation on the frame store. *)
Definition on_frames {A} (m : M heap A) : M world A :=
  fun w =>
    let '(r, h) := m (frames w) in
    (r, {| self := self w; frames := h; effects := effects w |}).

(** [try: body except Exception as e: handler e] *)
Definition try_except {S A} (body : M S A) (handler : exn -> M S A) : M S A :=
  fun s =>
    match body s with
    | (Ok a, s') => (Ok a, s')
    | (Raise e, s') => handler e s'
    end.

(** The names bound in the module's global namespace: the imports of lines
    1-9, what [from binance.enums import *] brings ([star]) and the names
    the module defines. *)
Definition module_globals (star : list string) : list string :=
  ["time"; "json"; "logging"; "datetime"; "pd"; "np"; "traceback";
   "Client"; "BinanceAPIException"; "BinanceRequestException"]
  ++ star
  ++ ["setup_logger"; "load_config"; "CryptoTradeBot"; "logger"; "config";
      "bot"].

(** Reading a global name. *)
Definition lookup_global {S} (g : list string) (name : string) : M S unit :=
  if bool_decide (name ∈ g) then ret tt else raise NameError.

(** ** Market data *)

Definition kline_columns : list string :=
  ["timestamp"; "open"; "high"; "low"; "close"; "volume"; "close_time";
   "quote_asset_volume"; "number_of_trades"; "taker_buy_base_asset_volume";
   "taker_buy_quote_asset_volume"; "ignore"].

(** The length of the longest candle. *)
Definition width (klines : list (list Q)) : nat :=
  foldr (fun row n => Nat.max (length row) n) 0%nat klines.

(** The entry of a candle in column [j]: a candle shorter than the longest
    one is padded with missing values, which are NaN in a column of
    floats. *)
Definition cell (j : nat) (row : list Q) : fl :=
  match row !! j with
  | Some q => Fin q
  | None => NaN
  end.

(** [pd.to_datetime(t, unit='ms')] (line 110): the open time in
    nanoseconds has to fit the 64 bits of a timestamp; a missing one
    becomes NaT. *)
Definition open_time_in_range (row : list Q) : bool :=
  match row !! 0%nat with
  | Some t => Qleb (Qabs t * 1000000) 9223372036854775807
  | None => true
  end.

(** Lines 103-111.  [pd.DataFrame(klines, columns=[...])] pads the candles
    to the longest of them and raises unless that has as many entries as
    there are column names (no candles give an empty frame); the conversion
    of [timestamp] raises on an open time out of range; the conversion of
    [close] to floats cannot fail on numbers. *)
Definition frame_of_klines (klines : list (list Q)) : result frame :=
  if match klines with
     | [] => true
     | _ :: _ => (width klines =? 12)%nat
     end
  then
    if forallb open_time_in_range klines then
      Ok (list_to_map
            (imap (fun j c => (c, map (cell j) klines)) kline_columns))
    else Raise ValueError
  else Raise ValueError.

(** A new DataFrame object in the store. *)
Definition new_frame (d : frame) : M heap loc :=
  fun h => let l := fresh (dom h) in (Ok l, <[l := d]> h).

(** [len(data)] *)
Definition len (data : loc) : M heap nat :=
  fun h => (Ok (frame_len (h !!! data)), h).

(** [data.iloc[-1]]: the last row, a value per column. *)
Definition iloc_last (data : loc) : M heap (gmap string fl) :=
  fun h =>
    let d := h !!! data in
    if (frame_len d =? 0)%nat then (Raise IndexError, h)
    else (Ok (omap last d), h).

(** [latest[c]] *)
Definition row_get {S} (latest : gmap string fl) (c : string) : M S fl :=
  match latest !! c with
  | Some x => ret x
  | None => raise KeyError
  end.

(** ** Order execution and the trading cycle *)

(** The way a call of [execute_buy_order] or [execute_sell_order] ends: the
    [return] statement reached, which is also the message logged. *)
Inductive outcome : Type :=
| Executed                 (* return True *)
| InsufficientBalance      (* "Balance insuficiente para comprar" *)
| OrderTooSmall            (* "Orden demasiado pequeña" *)
| NoOpenPosition           (* "Intento de venta sin posición abierta" *)
| ApiError                 (* except BinanceAPIException *)
| UnknownError (e : exn).  (* except Exception *)

(** The Python value returned. *)
Definition returned (o : outcome) : bool :=
  match o with
  | Executed => true
  | _ => false
  end.

(** The two [except] clauses that end both methods. *)
Definition handler (e : exn) : M world outcome :=
  match e with
  | BinanceAPIException => ret ApiError
  | _ => ret (UnknownError e)
  end.

(** The branch of the [if]/[elif] chain of [analyze_and_trade] taken. *)
Inductive decision : Type := ENTER | EXIT_PROFIT | EXIT_STOPLOSS | HOLD.

Section Bot.

Variable sqrt : Q -> Q.
(** The module's global namespace. *)
Variable g : list string.
Variable cfg : config.

Definition get_historical_data (client : exchange) : M world (option loc) :=
  try_except
    (let* klines :=
       call Called_get_historical_klines (get_historical_klines client) in
     let* d := of_result (frame_of_klines klines) in
     let* data := on_frames (new_frame d) in
     ret (Some data))
    (fun _ => ret None).

Definition execute_buy_order (client : exchange) (price : Q)
    : M world outcome :=
  try_except
    (let* balance :=
       call Called_get_asset_balance (get_asset_balance client) in
     if Qltb balance (min_order_value cfg) then ret InsufficientBalance
     else
       let order_value := pymin balance (max_order_value cfg) in
       let* quantity := of_result (pydiv order_value price) in
       let* info :=
         call Called_get_symbol_info (get_symbol_info client) in
       let* lot_size_filter :=
         match filter (fun f => filterType f = "LOT_SIZE") info with
         | f :: _ => ret f
         | [] => raise StopIteration
         end in
       let* step_size :=
         match stepSize lot_size_filter with
         | Some s => ret s
         | None => raise KeyError
         end in
       lookup_global g "math" ;;;
       let* quantity := of_result (round_to_step quantity step_size) in
       if Qltb (quantity * price) (min_order_value cfg) then
         ret OrderTooSmall
       else
         call (Called_create_order SIDE_BUY quantity)
              (create_order client SIDE_BUY quantity) ;;;
         modify (set_self (fun b =>
           {| pos := {| in_position := true;
                        quantity := quantity;
                        buy_price := price |};
              transactions := transactions b |})) ;;;
         let transaction :=
           {| tx_type_of := BUY;
              tx_timestamp := now client;
              tx_symbol := trading_pair cfg;
              tx_price := price;
              tx_quantity := quantity;
              tx_value := quantity * price;
              tx_profit := None;
              tx_profit_percent := None |} in
         modify (set_self (fun b =>
           {| pos := pos b;
              transactions := transactions b ++ [transaction] |})) ;;;
         ret Executed)
    handler.

Definition execute_sell_order (client : exchange) (price : Q)
    : M world outcome :=
  try_except
    (let* w := get in
     let position := pos (self w) in
     if negb (in_position position) then ret NoOpenPosition
     else
       call (Called_create_order SIDE_SELL (quantity position))
            (create_order client SIDE_SELL (quantity position)) ;;;
       let buy_value := quantity position * buy_price position in
       let sell_value := quantity position * price in
       let profit := sell_value - buy_value in
       let* ratio := of_result (pydiv profit buy_value) in
       let profit_percent := ratio * 100 in
       let transaction :=
         {| tx_type_of := SELL;
            tx_timestamp := now client;
            tx_symbol := trading_pair cfg;
            tx_price := price;
            tx_quantity := quantity position;
            tx_value := sell_value;
            tx_profit := Some profit;
            tx_profit_percent := Some profit_percent |} in
       modify (set_self (fun b =>
         {| pos := pos b;
            transactions := transactions b ++ [transaction] |})) ;;;
       modify (set_self (fun b =>
         {| pos := {| in_position := false; quantity := 0; buy_price := 0 |};
            transactions := transactions b |})) ;;;
       ret Executed)
    handler.

(** [json.dump(self.transactions, f)] into [transactions.json]; a failure
    of the write is logged and goes no further. *)
Definition save_transactions : M world unit :=
  let* w := get in
  emit (Wrote_transactions (transactions (self w))).

(** Lines 295-310: which branch is taken.  The percentage computed at the
    head of the two selling branches divides by the buy price.  Products
    and quotients are those of the exact values: within the rounding of a
    double of a threshold the code can fall on the other side of it, so
    the statements about the signal are about the order of the branches
    and about signs, not about a price exactly on a threshold. *)
Definition trading_signal (position : position) (rsi upper_band lower_band : fl)
    (current_price : Q) : result decision :=
  if negb (in_position position)
     && Fl.lt rsi (Fin (rsi_oversold cfg))
     && Fl.le (Fin current_price) (Fl.mul lower_band (Fin 1.02))
  then Ok ENTER
  else if in_position position
          && (Fl.gt rsi (Fin (rsi_overbought cfg))
              || Fl.ge (Fin current_price) (Fl.mul upper_band (Fin 0.98)))
  then
    match pydiv (current_price - buy_price position) (buy_price position) with
    | Ok _ => Ok EXIT_PROFIT
    | Raise e => Raise e
    end
  else if in_position position then
    match pydiv (current_price - buy_price position) (buy_price position) with
    | Ok ratio =>
        let loss_percent := ratio * 100 in
        if Qltb loss_percent (- max_loss_percent cfg) then Ok EXIT_STOPLOSS
        else Ok HOLD
    | Raise e => Raise e
    end
  else Ok HOLD.

Definition analyze_and_trade (client : exchange) : M world unit :=
  let* data := get_historical_data client in
  match data with
  | None => ret tt
  | Some data =>
      let* n := on_frames (len data) in
      if (n <? bollinger_period cfg)%nat then ret tt
      else
        let* rsi := on_frames (calculate_rsi data (rsi_period cfg)) in
        on_frames (set_col data "rsi" rsi) ;;;
        let* data :=
          on_frames (calculate_bollinger_bands sqrt data
                       (bollinger_period cfg) (bollinger_std cfg)) in
        let* latest := on_frames (iloc_last data) in
        let* ticker :=
          try_except
            (let* price :=
               call Called_get_symbol_ticker (get_symbol_ticker client) in
             ret (Some price))
            (fun _ => ret None) in
        match ticker with
        | None => ret tt
        | Some current_price =>
            let* rsi := row_get latest "rsi" in
            let* upper_band := row_get latest "upper_band" in
            let* lower_band := row_get latest "lower_band" in
            let* w := get in
            let* signal :=
              of_result (trading_signal (pos (self w)) rsi upper_band
                           lower_band current_price) in
            match signal with
            | ENTER => execute_buy_order client current_price ;;; ret tt
            | EXIT_PROFIT | EXIT_STOPLOSS =>
                execute_sell_order client current_price ;;; ret tt
            | HOLD => ret tt
            end ;;;
            save_transactions
        end
  end.

(** Lines 294-313 as a function of the values they read: the branch
    taken, the order it executes, and the save that ends the cycle. *)
Definition trade_on_signal (client : exchange)
    (rsi upper_band lower_band : fl) (current_price : Q) : M world unit :=
  let* w := get in
  let* signal :=
    of_result (trading_signal (pos (self w)) rsi upper_band
                 lower_band current_price) in
  match signal with
  | ENTER => execute_buy_order client current_price ;;; ret tt
  | EXIT_PROFIT | EXIT_STOPLOSS =>
      execute_sell_order client current_price ;;; ret tt
  | HOLD => ret tt
  end ;;;
  save_transactions.

(** The loop of [run], one exchange per cycle; it ends when a cycle
    raises or when the list is exhausted (the bot is stopped). *)
Fixpoint cycles (clients : list exchange) : M world unit :=
  match clients with
  | [] => ret tt
  | client :: rest => analyze_and_trade client ;;; cycles rest
  end.

(** [run]: the loop, then the [finally] clause. *)
Definition run (clients : list exchange) : M world unit :=
  fun w => let '(_, w') := cycles clients w in save_transactions w'.

End Bot.

Definition start : world := {| self := init; frames := ∅; effects := [] |}.

(** The ledger after a confirmed buy of [q] at [price], and after a
    confirmed sell at [price] with the profit percentage [pp]. *)
Definition bought (cfg : config) (t : Z) (q price : Q) (b : bot) : bot :=
  {| pos := {| in_position := true; quantity := q; buy_price := price |};
     transactions := transactions b ++
       [{| tx_type_of := BUY; tx_timestamp := t;
           tx_symbol := trading_pair cfg; tx_price := price;
           tx_quantity := q; tx_value := q * price;
           tx_profit := None; tx_profit_percent := None |}] |}.

Definition sold (cfg : config) (t : Z) (price pp : Q) (b : bot) : bot :=
  let q := quantity (pos b) in
  {| pos := {| in_position := false; quantity := 0; buy_price := 0 |};
     transactions := transactions b ++
       [{| tx_type_of := SELL; tx_timestamp := t;
           tx_symbol := trading_pair cfg; tx_price := price;
           tx_quantity := q; tx_value := q * price;
           tx_profit := Some (q * price - q * buy_price (pos b));
           tx_profit_percent := Some pp |}] |}.

(** ** The ledger and the position *)

Global Instance tx_type_eq_dec : EqDecision tx_type.
Proof. solve_decision. Defined.

Definition count_type (t : tx_type) (txs : list transaction) : nat :=
  length (filter (fun tx => tx_type_of tx = t) txs).

(** The BUY records not yet closed by a SELL, most recent first: a SELL
    closes the most recent open BUY. *)
Fixpoint unmatched (open : list transaction) (txs : list transaction)
    : list transaction :=
  match txs with
  | [] => open
  | tx :: rest =>
      match tx_type_of tx with
      | BUY => unmatched (tx :: open) rest
      | SELL => unmatched (tail open) rest
      end
  end.

Definition last_unmatched_buy (txs : list transaction) : option transaction :=
  head (unmatched [] txs).

(** The position agrees with the transaction history. *)
Definition ledger_consistent (b : bot) : Prop :=
  (in_position (pos b) = true <->
   count_type BUY (transactions b) = S (count_type SELL (transactions b))) /\
  (in_position (pos b) = true ->
   exists tx, last_unmatched_buy (transactions b) = Some tx /\
              quantity (pos b) = tx_quantity tx /\
              buy_price (pos b) = tx_price tx).

(** The invariant in the form an induction on the cycles carries it: the
    open BUY records are exactly the one behind the position, or none. *)
Definition ledger_inv (b : bot) : Prop :=
  if in_position (pos b) then
    count_type BUY (transactions b) = S (count_type SELL (transactions b)) /\
    exists tx, unmatched [] (transactions b) = [tx] /\
               quantity (pos b) = tx_quantity tx /\
               buy_price (pos b) = tx_price tx
  else
    count_type BUY (transactions b) = count_type SELL (transactions b) /\
    unmatched [] (transactions b) = [].

(** What one trading cycle can do to the ledger. *)
Definition ledger_step (cfg : config) (client : exchange) (b b' : bot) : Prop :=
  b' = b \/
  (in_position (pos b) = false /\
   exists q price, b' = bought cfg (now client) q price b) \/
  (in_position (pos b) = true /\
   exists price pp, b' = sold cfg (now client) price pp b).

(** The ways one call of [analyze_and_trade] on [w] can go, with its result,
    the world it leaves and the effects it had: it ends before a signal is
    acted upon (early return or exception), it holds, or it executes one
    order; save for the first case it ends by writing the transaction
    file. *)
Inductive cycle_end (g : list string) (cfg : config) (client : exchange)
    (w : world) : result unit -> world -> list effect -> Prop :=
| cycle_no_trade r w' es :
    self w' = self w ->
    es = [Called_get_historical_klines] \/
    es = [Called_get_historical_klines; Called_get_symbol_ticker] ->
    cycle_end g cfg client w r w' es
| cycle_hold w' :
    self w' = self w ->
    cycle_end g cfg client w (Ok tt) w'
      [Called_get_historical_klines; Called_get_symbol_ticker;
       Wrote_transactions (transactions (self w))]
| cycle_enter price o w1 w2 es2 w' :
    in_position (pos (self w)) = false ->
    get_symbol_ticker client = Ok price ->
    self w1 = self w ->
    execute_buy_order g cfg client price w1 = (Ok o, w2) ->
    effects w2 = effects w1 ++ es2 ->
    self w' = self w2 ->
    cycle_end g cfg client w (Ok tt) w'
      ([Called_get_historical_klines; Called_get_symbol_ticker] ++ es2 ++
       [Wrote_transactions (transactions (self w2))])
| cycle_exit price o w1 w2 es2 w' :
    in_position (pos (self w)) = true ->
    get_symbol_ticker client = Ok price ->
    self w1 = self w ->
    execute_sell_order cfg client price w1 = (Ok o, w2) ->
    effects w2 = effects w1 ++ es2 ->
    self w' = self w2 ->
    cycle_end g cfg client w (Ok tt) w'
      ([Called_get_historical_klines; Called_get_symbol_ticker] ++ es2 ++
       [Wrote_transactions (transactions (self w2))]).

(** A value of a series of averages of non-negative numbers. *)
Definition nan_or_nonneg (x : fl) : Prop :=
  match x with
  | Fin q => 0 <= q
  | NaN => True
  | PInf | NInf => False
  end.

(** A finite value is non-negative (nothing is asked of the others). *)
Definition nonneg (x : fl) : Prop :=
  match x with
  | Fin q => 0 <= q
  | _ => True
  end.

(** A position as the specification's data model has it. *)
Definition Long (p : position) : Prop :=
  in_position p = true /\ 0 < quantity p /\ 0 < buy_price p.

Definition Flat (p : position) : Prop := in_position p = false.

(** The frame after the four column assignments of
    [calculate_bollinger_bands] on a frame whose [close] column is
    [close]. *)
Definition bollinger_columns (sqrt : Q -> Q) (period : nat) (std_dev : Q)
    (close : series) (d : frame) : frame :=
  let sma := rolling_mean period close in
  let sd := rolling_std sqrt period close in
  <["lower_band" := zip_with Fl.sub sma (scale std_dev sd)]>
    (<["upper_band" := zip_with Fl.add sma (scale std_dev sd)]>
       (<["std" := sd]> (<["sma" := sma]> d))).

(** The quantity [r] is [quantity] rounded down to a multiple of the step:
    the reading of the normalizer the specification gives. *)
Definition rounded_down (quantity step_size r : Q) : Prop :=
  r <= quantity /\ quantity < r + step_size /\
  exists n : Z, r == inject_Z n * step_size.

(** The outcomes by which a method refuses a call because of the state of
    the position. *)
Definition position_guard (o : outcome) : bool :=
  match o with
  | NoOpenPosition => true
  | _ => false
  end.

(** ** Worked scenarios *)

Module Sample.

(** A square root that is exact on the squares of rationals. *)
Definition sqrt (q : Q) : Q :=
  let r := Qred q in Z.sqrt (Qnum r) # Pos.sqrt (Qden r).

(** The names of [binance.enums] the module uses. *)
Definition star : list string :=
  ["SIDE_BUY"; "SIDE_SELL"; "ORDER_TYPE_MARKET"].

Definition cfg : config :=
  {| trading_pair := "BTCUSDT";
     rsi_period := 2; rsi_overbought := 70; rsi_oversold := 30;
     bollinger_period := 3; bollinger_std := 1;
     min_order_value := 10; max_order_value := 100;
     max_loss_percent := 5 |}.

Definition kline (close : Q) : list Q :=
  [0; 0; 0; 0; close; 0; 0; 0; 0; 0; 0; 0].

(** Three falling closes: RSI 0, lower band 10; the price 10 gives the
    buy signal.  The balance and the fate of orders are parameters. *)
Definition oversold (balance : Q) (order : result unit) : exchange :=
  {| get_historical_klines := Ok (kline <$> [30; 20; 10]);
     get_symbol_ticker := Ok 10;
     get_asset_balance := Ok balance;
     get_symbol_info :=
       Ok [{| filterType := "PRICE_FILTER"; stepSize := None |};
           {| filterType := "LOT_SIZE"; stepSize := Some 0.001 |}];
     create_order := fun _ _ => order;
     now := 1700000000 |}.

(** Three rising closes: RSI 100; the price 31 gives the sell signal. *)
Definition overbought (order : result unit) : exchange :=
  {| get_historical_klines := Ok (kline <$> [10; 20; 30]);
     get_symbol_ticker := Ok 31;
     get_asset_balance := Ok 0;
     get_symbol_info := Ok [];
     create_order := fun _ _ => order;
     now := 1700003600 |}.

(** A world whose position is open: 5 units bought at 10. *)
Definition long : world :=
  {| self := bought cfg 1700000000 5 10 init; frames := ∅; effects := [] |}.

(** A frame with a [close] column only. *)
Definition closes (cs : list Q) : heap :=
  {[ 1%positive := {[ "close" := Fin <$> cs ]} ]}.

End Sample.

(** ** Vocabulary of the further properties *)

(** The position as the code keeps it: closed, it is the initial value;
    open, it is worth at least [min_order_value] at a buy price that is not
    zero. *)
Definition position_wf (cfg : config) (p : position) : Prop :=
  if in_position p then
    min_order_value cfg <= quantity p * buy_price p /\ ~ buy_price p == 0
  else quantity p = 0 /\ buy_price p = 0.

Definition is_order (e : effect) : bool :=
  match e with
  | Called_create_order _ _ => true
  | _ => false
  end.

Definition is_write (e : effect) : bool :=
  match e with
  | Wrote_transactions _ => true
  | _ => false
  end.

(** How many effects of a kind a trace holds. *)
Definition count_effects (kind : effect -> bool) (es : list effect) : nat :=
  length (List.filter kind es).

(** The [close] column of the frame built from the candles: the fifth
    entry of each, as a float (lines 103-111). *)
Definition closes_of (klines : list (list Q)) : series :=
  map (cell 4) klines.

(** The candles [get_historical_data] makes a frame of: none at all, or
    candles the longest of which has twelve entries; and every open time in
    the range of a timestamp. *)
Definition klines_accepted (klines : list (list Q)) : Prop :=
  (klines = [] \/ width klines = 12%nat) /\
  Forall (fun row => open_time_in_range row = true) klines.

(** ** Further scenarios *)

Module Edge.

(** A configuration that accepts orders of any size. *)
Definition cfg : config :=
  {| trading_pair := "BTCUSDT";
     rsi_period := 2; rsi_overbought := 70; rsi_oversold := 30;
     bollinger_period := 3; bollinger_std := 1;
     min_order_value := 0; max_order_value := 100;
     max_loss_percent := 5 |}.

(** A world whose position is open with nothing in it: a buy with an empty
    balance under [cfg], accepted by the exchange. *)
Definition empty_long : world :=
  (execute_buy_order ("math" :: module_globals Sample.star) cfg
     (Sample.oversold 0 (Ok tt)) 10 start).2.

(** Candles of unequal length, the longest with twelve entries: the last
    one lacks its last entry. *)
Definition ragged : list (list Q) :=
  [Sample.kline 30; Sample.kline 20; [0; 0; 0; 0; 10; 0; 0; 0; 0; 0; 0]].

(** A candle of twelve entries whose open time, [10^16] ms, is beyond the
    last timestamp. *)
Definition late : list (list Q) :=
  [Sample.kline 30; Sample.kline 20;
   [10000000000000000; 0; 0; 0; 10; 0; 0; 0; 0; 0; 0; 0]].

(** An exchange that answers the candle query with [klines]. *)
Definition candles (klines : list (list Q)) : exchange :=
  {| get_historical_klines := Ok klines;
     get_symbol_ticker := Ok 10;
     get_asset_balance := Ok 50;
     get_symbol_info :=
       Ok [{| filterType := "LOT_SIZE"; stepSize := Some 0.001 |}];
     create_order := fun _ _ => Ok tt;
     now := 1700000000 |}.

End Edge.

(** * Properties *)

(** ** Comparisons on rationals *)

Lemma Qltb_lt x y : Qltb x y = true <-> x < y.
Proof.
  unfold Qltb. rewrite Qlt_alt. destruct (x ?= y); split; congruence.
Qed.

Lemma Qltb_ge x y : Qltb x y = false <-> y <= x.
Proof.
  unfold Qltb. destruct (x ?= y) eqn:Hc; split; intros H;
    try reflexivity; try discriminate.
  - apply Qeq_alt in Hc. lra.
  - apply Qlt_alt in Hc. lra.
  - apply Qgt_alt in Hc. lra.
Qed.

Lemma Qleb_le x y : Qleb x y = true <-> x <= y.
Proof.
  unfold Qleb. rewrite Qle_alt. destruct (x ?= y); split; congruence.
Qed.

Lemma Qeqb_eq x y : Qeqb x y = true <-> x == y.
Proof.
  unfold Qeqb. rewrite Qeq_alt. destruct (x ?= y); split; congruence.
Qed.

Lemma Qeqb_neq x y : Qeqb x y = false <-> ~ x == y.
Proof.
  rewrite <- Qeqb_eq. destruct (Qeqb x y); split; congruence.
Qed.

(** ** The monad *)

Ltac run_step :=
  unfold bind, ret, raise, get, modify, of_result, emit, call, try_except,
    lookup_global, set_self; simpl.

Lemma handler_run e w :
  exists o, handler e w = (Ok o, w) /\ returned o = false.
Proof. destruct e; simpl; eauto. Qed.

Ltac by_handler :=
  match goal with
  | |- context [handler ?e ?w] =>
      let o := fresh "o" in
      let Ho := fresh "Ho" in
      destruct (handler_run e w) as (o & -> & Ho)
  end.

(** Case analysis on the innermost scrutinee of the goal. *)
Ltac destruct_inner :=
  match goal with
  | |- context [match ?x with _ => _ end] =>
      lazymatch x with
      | context [match _ with _ => _ end] => fail
      | _ => destruct x eqn:?; simpl
      end
  end.

(** ** Order execution *)

Ltac ledger_unchanged :=
  try by_handler;
  eexists _, _; split; [reflexivity|]; simpl;
  split; [reflexivity|];
  split;
    [eexists; split;
       [first [rewrite <- ?app_assoc; reflexivity
              |symmetry; apply app_nil_r]|];
     let Hin := fresh "Hin" in
     intros ? ? Hin;
     repeat (apply elem_of_cons in Hin as [Hin|Hin];
             [first [discriminate Hin
                    |injection Hin as -> ->; split_and!;
                     first [assumption|reflexivity]]
             |]);
     apply elem_of_nil in Hin; destruct Hin|];
  left; split; [assumption || reflexivity | reflexivity].

Section BuyOrder.

Variable g : list string.
Variable cfg : config.
Variable client : exchange.
Variable price : Q.

(** Every way [execute_buy_order] can end: it returns (it never raises);
    either it returns [False] with the ledger as it was, or it returns
    [True] after a confirmed order, with the position and the ledger
    updated.  An order is submitted only if [math] is bound. *)
Lemma buy_cases w :
  exists o w',
    execute_buy_order g cfg client price w = (Ok o, w') /\
    frames w' = frames w /\
    (exists es, effects w' = effects w ++ es /\
       forall s q, Called_create_order s q ∈ es ->
         "math" ∈ g /\ s = SIDE_BUY) /\
    ((returned o = false /\ self w' = self w) \/
     (o = Executed /\ "math" ∈ g /\
      exists q, create_order client SIDE_BUY q = Ok tt /\
                self w' = bought cfg (now client) q price (self w) /\
                effects w' = effects w ++
                  [Called_get_asset_balance; Called_get_symbol_info;
                   Called_create_order SIDE_BUY q])).
Proof.
  unfold execute_buy_order. run_step.
  destruct (get_asset_balance client) as [balance|e]; simpl;
    [|ledger_unchanged].
  destruct (Qltb balance (min_order_value cfg)); simpl;
    [ledger_unchanged|].
  destruct (pydiv _ price) as [qty|e]; simpl; [|ledger_unchanged].
  destruct (get_symbol_info client) as [info|e]; simpl;
    [|ledger_unchanged].
  destruct (filter _ info) as [|f ?]; simpl; [ledger_unchanged|].
  destruct (stepSize f) as [step_size|]; simpl; [|ledger_unchanged].
  case_bool_decide as Hmath; simpl; [|ledger_unchanged].
  destruct (round_to_step qty step_size) as [q|e]; simpl;
    [|ledger_unchanged].
  destruct (Qltb (q * price) (min_order_value cfg)); simpl;
    [ledger_unchanged|].
  destruct (create_order client SIDE_BUY q) as [[]|e] eqn:Hc; simpl;
    [|ledger_unchanged].
  eexists _, _; split; [reflexivity|]; simpl.
  split; [reflexivity|].
  split.
  - eexists; split; [rewrite <- ?app_assoc; reflexivity|].
    intros s0 q0 Hin.
    repeat (apply elem_of_cons in Hin as [Hin|Hin];
            [try discriminate Hin|]).
    + injection Hin as -> ->. split; [assumption|reflexivity].
    + apply elem_of_nil in Hin; destruct Hin.
  - right. split; [reflexivity|]. split; [assumption|].
    exists q. split; [assumption|]. split; [reflexivity|].
    rewrite <- !app_assoc. reflexivity.
Qed.

(** A call always begins with the balance query, and only a call of
    [execute_buy_order] makes that query. *)
Lemma buy_queries_balance_first w :
  exists r w' es,
    execute_buy_order g cfg client price w = (r, w') /\
    effects w' = effects w ++ Called_get_asset_balance :: es.
Proof.
  unfold execute_buy_order. run_step.
  repeat destruct_inner; try by_handler;
    eexists _, _, _; (split; [reflexivity|]); simpl;
    rewrite <- ?app_assoc; reflexivity.
Qed.

(** The guard of line 154. *)
Lemma buy_insufficient w balance :
  get_asset_balance client = Ok balance ->
  balance < min_order_value cfg ->
  execute_buy_order g cfg client price w =
  (Ok InsufficientBalance,
   {| self := self w; frames := frames w;
      effects := effects w ++ [Called_get_asset_balance] |}).
Proof.
  intros Hb Hlt. apply Qltb_lt in Hlt.
  unfold execute_buy_order. run_step. rewrite Hb. simpl.
  rewrite Hlt. reflexivity.
Qed.

End BuyOrder.

Section SellOrder.

Variable cfg : config.
Variable client : exchange.
Variable price : Q.

(** Every way [execute_sell_order] can end: [False] with the ledger as it
    was, or [True] after a confirmed order for the whole position, with
    the SELL record appended and the position flat.  The only effect is
    the order, and it is submitted only from an open position. *)
Lemma sell_cases w :
  exists o w',
    execute_sell_order cfg client price w = (Ok o, w') /\
    frames w' = frames w /\
    (exists es, effects w' = effects w ++ es /\
       (es = [] \/
        in_position (pos (self w)) = true /\
        es = [Called_create_order SIDE_SELL (quantity (pos (self w)))])) /\
    ((returned o = false /\ self w' = self w) \/
     (o = Executed /\ in_position (pos (self w)) = true /\
      create_order client SIDE_SELL (quantity (pos (self w))) = Ok tt /\
      exists pp, self w' = sold cfg (now client) price pp (self w))).
Proof.
  unfold execute_sell_order. run_step.
  destruct (in_position (pos (self w))) eqn:Hpos; simpl.
  - destruct (create_order client SIDE_SELL _) as [[]|e] eqn:Hc; simpl;
      [destruct (pydiv _ _) as [ratio|e]; simpl|]; try by_handler.
    all: eexists _, _; split; [reflexivity|]; simpl.
    all: split; [reflexivity|].
    all: split; [eexists; split; [reflexivity|]; right; split; reflexivity|].
    all: try (left; split; [assumption|reflexivity]).
    right. split_and!; try reflexivity.
    exists (ratio * 100). reflexivity.
  - eexists _, _; split; [reflexivity|]; simpl.
    split; [reflexivity|].
    split; [exists []; split; [symmetry; apply app_nil_r|left; reflexivity]|].
    left; split; reflexivity.
Qed.

(** The guard of line 211. *)
Lemma sell_flat w :
  in_position (pos (self w)) = false ->
  execute_sell_order cfg client price w = (Ok NoOpenPosition, w).
Proof.
  intros Hpos. unfold execute_sell_order. run_step. rewrite Hpos.
  reflexivity.
Qed.

End SellOrder.

(** ** The trading cycle *)

Section Cycle.

Variable sqrt : Q -> Q.
Variable g : list string.
Variable cfg : config.
Variable client : exchange.

Lemma analyze_and_trade_tail :
  analyze_and_trade sqrt g cfg client =
  (let* data := get_historical_data client in
   match data with
   | None => ret tt
   | Some data =>
       let* n := on_frames (len data) in
       if (n <? bollinger_period cfg)%nat then ret tt
       else
         let* rsi := on_frames (calculate_rsi data (rsi_period cfg)) in
         on_frames (set_col data "rsi" rsi) ;;;
         let* data :=
           on_frames (calculate_bollinger_bands sqrt data
                        (bollinger_period cfg) (bollinger_std cfg)) in
         let* latest := on_frames (iloc_last data) in
         let* ticker :=
           try_except
             (let* price :=
                call Called_get_symbol_ticker (get_symbol_ticker client) in
              ret (Some price))
             (fun _ => ret None) in
         match ticker with
         | None => ret tt
         | Some current_price =>
             let* rsi := row_get latest "rsi" in
             let* upper_band := row_get latest "upper_band" in
             let* lower_band := row_get latest "lower_band" in
             trade_on_signal g cfg client rsi upper_band lower_band
               current_price
         end
   end).
Proof. reflexivity. Qed.

Local Opaque trade_on_signal calculate_rsi calculate_bollinger_bands
  new_frame len iloc_last set_col.

(** A cycle either ends before the signal is evaluated, having only read
    from the exchange, or it reaches lines 294-313 with the ledger as it
    was. *)
Lemma analyze_prefix w :
  (exists r w' es,
     analyze_and_trade sqrt g cfg client w = (r, w') /\
     self w' = self w /\ effects w' = effects w ++ es /\
     (es = [Called_get_historical_klines] \/
      es = [Called_get_historical_klines; Called_get_symbol_ticker])) \/
  (exists w1 rsi upper_band lower_band current_price,
     analyze_and_trade sqrt g cfg client w =
       trade_on_signal g cfg client rsi upper_band lower_band
         current_price w1 /\
     self w1 = self w /\
     effects w1 = effects w ++
       [Called_get_historical_klines; Called_get_symbol_ticker] /\
     get_symbol_ticker client = Ok current_price).
Proof.
  rewrite analyze_and_trade_tail.
  unfold get_historical_data, on_frames, row_get.
  run_step.
  repeat destruct_inner.
  all: first
    [ left; eexists _, _, _; split; [reflexivity|]; simpl;
      split; [reflexivity|];
      split; [rewrite <- ?app_assoc; reflexivity|];
      simpl; auto
    | right; eexists _, _, _, _, _; split; [reflexivity|]; simpl;
      split; [reflexivity|];
      split; [rewrite <- ?app_assoc; reflexivity|];
      first [assumption | reflexivity] ].
Qed.

Local Transparent trade_on_signal.

Section Signal.

Variables (rsi upper_band lower_band : fl) (current_price : Q).

Lemma signal_enter_flat p :
  trading_signal cfg p rsi upper_band lower_band current_price = Ok ENTER ->
  in_position p = false.
Proof.
  unfold trading_signal. destruct (in_position p); simpl; [|reflexivity].
  repeat destruct_inner; discriminate.
Qed.

Lemma signal_exit_long p d :
  trading_signal cfg p rsi upper_band lower_band current_price = Ok d ->
  d = EXIT_PROFIT \/ d = EXIT_STOPLOSS ->
  in_position p = true.
Proof.
  unfold trading_signal. destruct (in_position p); simpl; [reflexivity|].
  repeat destruct_inner; intros [= <-] [|]; discriminate.
Qed.

(** Lines 294-313, branch by branch. *)
Lemma trade_on_signal_run w :
  match trading_signal cfg (pos (self w)) rsi upper_band lower_band
          current_price with
  | Raise e =>
      trade_on_signal g cfg client rsi upper_band lower_band
        current_price w = (Raise e, w)
  | Ok ENTER =>
      exists o w2,
        execute_buy_order g cfg client current_price w = (Ok o, w2) /\
        trade_on_signal g cfg client rsi upper_band lower_band
          current_price w = save_transactions w2
  | Ok HOLD =>
      trade_on_signal g cfg client rsi upper_band lower_band
        current_price w = save_transactions w
  | Ok _ =>
      exists o w2,
        execute_sell_order cfg client current_price w = (Ok o, w2) /\
        trade_on_signal g cfg client rsi upper_band lower_band
          current_price w = save_transactions w2
  end.
Proof.
  unfold trade_on_signal, bind, get, of_result, ret. cbv beta.
  destruct (trading_signal _ _ _ _ _ _) as [[]|e]; try reflexivity.
  - destruct (buy_cases g cfg client current_price w)
      as (o & w2 & Hb & _).
    exists o, w2. split; [assumption|].
    rewrite Hb. reflexivity.
  - destruct (sell_cases cfg client current_price w)
      as (o & w2 & Hs & _).
    exists o, w2. split; [assumption|].
    rewrite Hs. reflexivity.
  - destruct (sell_cases cfg client current_price w)
      as (o & w2 & Hs & _).
    exists o, w2. split; [assumption|].
    rewrite Hs. reflexivity.
Qed.

Lemma save_transactions_run w :
  save_transactions w =
  (Ok tt, {| self := self w; frames := frames w;
             effects := effects w ++
               [Wrote_transactions (transactions (self w))] |}).
Proof. reflexivity. Qed.

Lemma trade_on_signal_step w :
  ledger_step cfg client (self w)
    (self (trade_on_signal g cfg client rsi upper_band lower_band
             current_price w).2).
Proof.
  pose proof (trade_on_signal_run w) as Hrun.
  destruct (trading_signal _ _ _ _ _ _) as [d|e] eqn:Hsig.
  - destruct d.
    + destruct Hrun as (o & w2 & Hb & ->).
      apply signal_enter_flat in Hsig.
      destruct (buy_cases g cfg client current_price w)
        as (o' & w2' & Hb' & _ & _ & Hcase).
      rewrite Hb in Hb'. injection Hb' as <- <-.
      rewrite save_transactions_run; simpl.
      destruct Hcase as [[_ ->] | (_ & _ & q & _ & -> & _)].
      * left; reflexivity.
      * right; left. split; [assumption|]. eauto.
    + destruct Hrun as (o & w2 & Hs & ->).
      eapply signal_exit_long in Hsig; [|left; reflexivity].
      destruct (sell_cases cfg client current_price w)
        as (o' & w2' & Hs' & _ & _ & Hcase).
      rewrite Hs in Hs'. injection Hs' as <- <-.
      rewrite save_transactions_run; simpl.
      destruct Hcase as [[_ ->] | (_ & _ & _ & pp & ->)].
      * left; reflexivity.
      * right; right. split; [assumption|]. eauto.
    + destruct Hrun as (o & w2 & Hs & ->).
      eapply signal_exit_long in Hsig; [|right; reflexivity].
      destruct (sell_cases cfg client current_price w)
        as (o' & w2' & Hs' & _ & _ & Hcase).
      rewrite Hs in Hs'. injection Hs' as <- <-.
      rewrite save_transactions_run; simpl.
      destruct Hcase as [[_ ->] | (_ & _ & _ & pp & ->)].
      * left; reflexivity.
      * right; right. split; [assumption|]. eauto.
    + rewrite Hrun. left; reflexivity.
  - rewrite Hrun. left; reflexivity.
Qed.

End Signal.

(** The shape of a whole cycle. *)
Lemma analyze_and_trade_run w :
  exists r w' es,
    analyze_and_trade sqrt g cfg client w = (r, w') /\
    effects w' = effects w ++ es /\
    cycle_end g cfg client w r w' es.
Proof.
  destruct (analyze_prefix w)
    as [(r & w' & es & Heq & Hself & Heff & Hes)
       |(w1 & rsi & ub & lb & p & Heq & Hself & Heff & Hp)].
  { exists r, w', es. split_and!; try assumption.
    apply cycle_no_trade; assumption. }
  rewrite Heq. clear Heq.
  pose proof (trade_on_signal_run rsi ub lb p w1) as Hrun.
  destruct (trading_signal _ _ _ _ _ _) as [d|e] eqn:Hsig.
  - destruct d.
    + destruct Hrun as (o & w2 & Hb & ->).
      apply signal_enter_flat in Hsig. rewrite Hself in Hsig.
      destruct (buy_cases g cfg client p w1)
        as (o' & w2' & Hb' & _ & (es2 & Hes2 & _) & _).
      rewrite Hb in Hb'. injection Hb' as <- <-.
      rewrite save_transactions_run.
      eexists _, _, _. split; [reflexivity|]. simpl.
      split; [|eapply cycle_enter; eauto].
      rewrite Hes2, Heff, <- !app_assoc. reflexivity.
    + destruct Hrun as (o & w2 & Hs & ->).
      eapply signal_exit_long in Hsig; [|left; reflexivity].
      rewrite Hself in Hsig.
      destruct (sell_cases cfg client p w1)
        as (o' & w2' & Hs' & _ & (es2 & Hes2 & _) & _).
      rewrite Hs in Hs'. injection Hs' as <- <-.
      rewrite save_transactions_run.
      eexists _, _, _. split; [reflexivity|]. simpl.
      split; [|eapply cycle_exit; eauto].
      rewrite Hes2, Heff, <- !app_assoc. reflexivity.
    + destruct Hrun as (o & w2 & Hs & ->).
      eapply signal_exit_long in Hsig; [|right; reflexivity].
      rewrite Hself in Hsig.
      destruct (sell_cases cfg client p w1)
        as (o' & w2' & Hs' & _ & (es2 & Hes2 & _) & _).
      rewrite Hs in Hs'. injection Hs' as <- <-.
      rewrite save_transactions_run.
      eexists _, _, _. split; [reflexivity|]. simpl.
      split; [|eapply cycle_exit; eauto].
      rewrite Hes2, Heff, <- !app_assoc. reflexivity.
    + rewrite Hrun, save_transactions_run, Hself.
      eexists _, _, _. split; [reflexivity|]. simpl.
      split; [|apply cycle_hold; reflexivity].
      rewrite Heff, <- !app_assoc. reflexivity.
  - rewrite Hrun.
    eexists _, _, _. split; [reflexivity|].
    split; [eassumption|].
    apply cycle_no_trade; [assumption|right; reflexivity].
Qed.

(** One cycle changes the ledger by at most one confirmed order. *)
Lemma analyze_and_trade_step w :
  ledger_step cfg client (self w)
    (self (analyze_and_trade sqrt g cfg client w).2).
Proof.
  destruct (analyze_prefix w)
    as [(r & w' & es & -> & Hself & _)
       |(w1 & rsi & ub & lb & p & -> & Hself & _)].
  - left; assumption.
  - rewrite <- Hself. apply trade_on_signal_step.
Qed.

End Cycle.

(** ** The ledger invariant *)

Lemma count_type_snoc t txs tx :
  count_type t (txs ++ [tx]) =
  (count_type t txs + (if decide (tx_type_of tx = t) then 1 else 0))%nat.
Proof.
  unfold count_type. rewrite filter_app, length_app.
  rewrite filter_cons, filter_nil. destruct (decide _); reflexivity.
Qed.

Lemma unmatched_snoc txs : forall open tx,
  unmatched open (txs ++ [tx]) =
  match tx_type_of tx with
  | BUY => tx :: unmatched open txs
  | SELL => tail (unmatched open txs)
  end.
Proof.
  induction txs as [|t txs IH]; intros open tx; simpl.
  - destruct (tx_type_of tx); reflexivity.
  - destruct (tx_type_of t); apply IH.
Qed.

Lemma ledger_inv_init : ledger_inv init.
Proof. split; reflexivity. Qed.

Lemma ledger_inv_step cfg client b b' :
  ledger_step cfg client b b' -> ledger_inv b -> ledger_inv b'.
Proof.
  intros [-> | [(Hflat & q & price & ->) | (Hlong & price & pp & ->)]] Hinv;
    [assumption| |]; unfold ledger_inv in *; rewrite ?Hflat, ?Hlong in Hinv;
    simpl; rewrite !count_type_snoc, unmatched_snoc; simpl.
  - destruct Hinv as [Hc Hu]. rewrite Hu. split; [lia|].
    eexists; split; [reflexivity|]. split; reflexivity.
  - destruct Hinv as (Hc & tx & Hu & _). rewrite Hu. split; [lia|reflexivity].
Qed.

Lemma ledger_inv_consistent b : ledger_inv b -> ledger_consistent b.
Proof.
  unfold ledger_inv, ledger_consistent, last_unmatched_buy.
  destruct (in_position (pos b)).
  - intros (Hc & tx & Hu & Hq & Hp). split; [tauto|].
    intros _. exists tx. rewrite Hu. auto.
  - intros [Hc Hu]. split; [|discriminate].
    split; [discriminate|]. lia.
Qed.

Lemma cycles_ledger_inv sqrt g cfg clients : forall w,
  ledger_inv (self w) -> ledger_inv (self (cycles sqrt g cfg clients w).2).
Proof.
  induction clients as [|client rest IH]; intros w Hinv; simpl.
  - assumption.
  - unfold bind.
    pose proof (analyze_and_trade_step sqrt g cfg client w) as Hstep.
    destruct (analyze_and_trade sqrt g cfg client w) as [[[]|e] w1];
      simpl in *.
    + apply IH. eapply ledger_inv_step; eassumption.
    + eapply ledger_inv_step; eassumption.
Qed.

(** ** RSI *)


Lemma all_finite_elem s : forall qs q,
  all_finite s = Some qs -> q ∈ qs -> Fin q ∈ s.
Proof.
  induction s as [|x s IH]; intros qs q; simpl.
  - intros [= <-] Hin. apply elem_of_nil in Hin. destruct Hin.
  - destruct x as [a| | |]; simpl; try discriminate.
    destruct (all_finite s) as [qs'|]; [|discriminate].
    intros [= <-] Hin. apply elem_of_cons in Hin as [-> | Hin].
    + apply elem_of_cons. left; reflexivity.
    + apply elem_of_cons. right. eapply IH; [reflexivity|assumption].
Qed.

Lemma window_elem w s i x : x ∈ window w s i -> x ∈ s.
Proof.
  unfold window. intros Hin.
  apply (subseteq_drop (S i - w) s), (subseteq_take w _), Hin.
Qed.

Lemma Qsum_nonneg qs : (forall q, q ∈ qs -> 0 <= q) -> 0 <= Qsum qs.
Proof.
  induction qs as [|a qs IH]; intros H; simpl; [lra|].
  assert (0 <= a) by (apply H, elem_of_cons; left; reflexivity).
  assert (0 <= Qsum qs).
  { apply IH. intros q Hq. apply H, elem_of_cons. right; assumption. }
  lra.
Qed.

Lemma Qlen_pos (a : Q) qs : 0 < Qlen (a :: qs).
Proof.
  unfold Qlen. change 0 with (inject_Z 0). rewrite <- Zlt_Qlt.
  simpl length. lia.
Qed.

Lemma mean_nonneg qs : (forall q, q ∈ qs -> 0 <= q) -> nan_or_nonneg (mean qs).
Proof.
  intros H. destruct qs as [|a qs]; simpl; [exact I|].
  apply Qle_shift_div_l; [apply Qlen_pos|].
  rewrite Qmult_0_l. apply (Qsum_nonneg (a :: qs)), H.
Qed.

Lemma rolling_mean_nonneg w s i x :
  Forall nonneg s -> rolling_mean w s !! i = Some x -> nan_or_nonneg x.
Proof.
  intros Hs. unfold rolling_mean, rolling. rewrite list_lookup_imap.
  destruct (s !! i) as [y|]; simpl; [|discriminate].
  intros [= <-]. destruct (w <=? S i)%nat; [|exact I].
  destruct (all_finite (window w s i)) as [qs|] eqn:Hfin; [|exact I].
  apply mean_nonneg. intros q Hq.
  pose proof (all_finite_elem _ _ _ Hfin Hq) as Hin.
  apply window_elem in Hin.
  rewrite Forall_forall in Hs. apply (Hs (Fin q)), Hin.
Qed.

Lemma rsi_gain_nonneg close : Forall nonneg (rsi_gain close).
Proof.
  unfold rsi_gain, mask. apply Forall_fmap, Forall_forall.
  intros [q| | |] _; simpl; try exact I; try lra.
  destruct (Qltb q 0) eqn:Hq; simpl; [lra|].
  apply Qltb_ge in Hq. assumption.
Qed.

Lemma rsi_loss_nonneg close : Forall nonneg (rsi_loss close).
Proof.
  unfold rsi_loss, mask. rewrite <- list_fmap_compose.
  apply Forall_fmap, Forall_forall.
  intros [q| | |] _; simpl; try exact I; try lra.
  unfold Fl.gt; simpl.
  destruct (Qltb 0 q) eqn:Hq; simpl; [lra|].
  apply Qltb_ge in Hq. lra.
Qed.

Lemma rsi_series_lookup close period i x :
  rsi_series close period !! i = Some x ->
  exists avg_gain avg_loss,
    rsi_avg_gain close period !! i = Some avg_gain /\
    rsi_avg_loss close period !! i = Some avg_loss /\
    x = rsi_of_rs (Fl.div avg_gain avg_loss).
Proof.
  unfold rsi_series. rewrite list_lookup_fmap, lookup_zip_with.
  destruct (rsi_avg_gain close period !! i) as [ag|]; [|discriminate].
  destruct (rsi_avg_loss close period !! i) as [al|]; [|discriminate].
  simpl. intros [= <-]. eauto.
Qed.


Lemma calculate_rsi_run data period h close :
  (h !!! data) !! "close" = Some close ->
  calculate_rsi data period h = (Ok (rsi_series close period), h).
Proof.
  intros Hc. unfold calculate_rsi, bind, get_col, ret. rewrite Hc.
  reflexivity.
Qed.

(** ** Rounding to the lot size *)

Lemma round_half_even_near x :
  Qabs (inject_Z (round_half_even x) - x) <= 1 # 2.
Proof.
  unfold round_half_even.
  pose proof (Qfloor_le x) as Hlo.
  pose proof (Qlt_floor x) as Hhi. rewrite inject_Z_plus in Hhi.
  change (inject_Z 1) with 1 in Hhi.
  apply Qabs_Qle_condition.
  destruct (Qcompare (x - inject_Z (Qfloor x)) (1 # 2)) eqn:Hc.
  - apply Qeq_alt in Hc.
    destruct (Z.even (Qfloor x)); rewrite ?inject_Z_plus;
      change (inject_Z 1) with 1; lra.
  - apply Qlt_alt in Hc. lra.
  - apply Qgt_alt in Hc. rewrite inject_Z_plus.
    change (inject_Z 1) with 1. lra.
Qed.

Lemma pow10_pos k : 0 < 10 ^ k.
Proof. apply Qpower_0_lt. reflexivity. Qed.

Lemma pyround_near x k :
  (exists n : Z, pyround x k == inject_Z n * 10 ^ (- k)) /\
  Qabs (pyround x k - x) <= 10 ^ (- k) / 2.
Proof.
  unfold pyround.
  pose proof (round_half_even_near (x * 10 ^ k)) as Hnear.
  apply Qabs_Qle_condition in Hnear.
  set (m := inject_Z (round_half_even (x * 10 ^ k))) in *.
  pose proof (pow10_pos k) as Hp.
  assert (10 ^ (- k) == / 10 ^ k) as Hinv by apply Qpower_opp.
  assert (0 < / 10 ^ k) as Hip by (apply Qinv_lt_0_compat; assumption).
  assert (10 ^ k * / 10 ^ k == 1) as Hone by (apply Qmult_inv_r; lra).
  split.
  - exists (round_half_even (x * 10 ^ k)). fold m. rewrite Hinv.
    reflexivity.
  - apply Qabs_Qle_condition. rewrite Hinv. unfold Qdiv.
    set (P := 10 ^ k) in *. set (t := / P) in *.
    assert (m * t - x == (m - x * P) * t) as E.
    { transitivity (m * t - x * (P * t)); [rewrite Hone|]; ring. }
    rewrite E. destruct Hnear as [Hl Hu].
    apply (Qmult_le_compat_r _ _ t) in Hl; [|lra].
    apply (Qmult_le_compat_r _ _ t) in Hu; [|lra].
    change (/ 2) with (1 # 2). split; lra.
Qed.

(** ** The claims about order execution *)

Lemma math_unbound star : "math" ∉ star -> "math" ∉ module_globals star.
Proof.
  intros Hstar. unfold module_globals.
  rewrite !elem_of_app, !elem_of_cons, elem_of_nil.
  intros [H|[H|H]]; [|contradiction|];
    repeat (destruct H as [H|H]; [discriminate H|]); exact H.
Qed.

(** C1. From the module as it is ([math] is not among its global names)
    [execute_buy_order] returns [False] for every price and every answer
    of the exchange, leaves the position and the transactions as they
    were, and submits no order. *)
Theorem buy_order_never_executes star cfg client price w :
  "math" ∉ star ->
  exists o w',
    execute_buy_order (module_globals star) cfg client price w = (Ok o, w') /\
    returned o = false /\
    pos (self w') = pos (self w) /\
    transactions (self w') = transactions (self w) /\
    exists es, effects w' = effects w ++ es /\
               forall s q, Called_create_order s q ∉ es.
Proof.
  intros Hstar. apply math_unbound in Hstar.
  destruct (buy_cases (module_globals star) cfg client price w)
    as (o & w' & Hrun & _ & (es & Hes & Horder) & Hcase).
  exists o, w'. split; [assumption|].
  destruct Hcase as [[Hret Hself] | (_ & Hmath & _)]; [|contradiction].
  rewrite Hself. split_and!; try reflexivity; try assumption.
  exists es. split; [assumption|].
  intros s q Hin. destruct (Horder s q Hin) as [Hmath _]. contradiction.
Qed.

Lemma buy_order_never_executes_witness :
  ("math" ∉ Sample.star) /\
  exists o w',
    execute_buy_order (module_globals Sample.star) Sample.cfg
      (Sample.oversold 50 (Ok tt)) 10 start = (Ok o, w') /\
    returned o = false /\
    pos (self w') = pos (self start) /\
    transactions (self w') = transactions (self start) /\
    exists es, effects w' = effects start ++ es /\
               forall s q, Called_create_order s q ∉ es.
Proof.
  assert ("math" ∉ Sample.star) as H
    by (apply (bool_decide_unpack _); vm_compute; exact I).
  split; [exact H|].
  exact (buy_order_never_executes Sample.star Sample.cfg
           (Sample.oversold 50 (Ok tt)) 10 start H).
Defined.

(** C6. When the order submitted by [execute_buy_order] or by
    [execute_sell_order] raises at the exchange, the method returns [False]
    and the position and the transactions are what they were before the
    call.  Both methods always return. *)
Theorem failed_order_keeps_ledger g cfg client price w :
  (exists o w',
     execute_buy_order g cfg client price w = (Ok o, w') /\
     forall es s q e,
       effects w' = effects w ++ es ->
       Called_create_order s q ∈ es ->
       create_order client s q = Raise e ->
       returned o = false /\ self w' = self w) /\
  (exists o w',
     execute_sell_order cfg client price w = (Ok o, w') /\
     forall es s q e,
       effects w' = effects w ++ es ->
       Called_create_order s q ∈ es ->
       create_order client s q = Raise e ->
       returned o = false /\ self w' = self w).
Proof.
  split.
  - destruct (buy_cases g cfg client price w)
      as (o & w' & Hrun & _ & _ & Hcase).
    exists o, w'. split; [assumption|].
    intros es s q e Hes Hin Hraise.
    destruct Hcase as [Hfail | (_ & _ & q0 & Hok & _ & Heff)];
      [assumption|].
    rewrite Heff in Hes. apply app_inv_head in Hes. subst es.
    repeat (apply elem_of_cons in Hin as [Hin|Hin]; [try discriminate Hin|]).
    + injection Hin as -> ->. congruence.
    + apply elem_of_nil in Hin. destruct Hin.
  - destruct (sell_cases cfg client price w)
      as (o & w' & Hrun & _ & (es' & Heff & Hes') & Hcase).
    exists o, w'. split; [assumption|].
    intros es s q e Hes Hin Hraise.
    destruct Hcase as [Hfail | (_ & _ & Hok & _)]; [assumption|].
    rewrite Heff in Hes. apply app_inv_head in Hes. subst es'.
    destruct Hes' as [-> | [_ ->]].
    + apply elem_of_nil in Hin. destruct Hin.
    + apply elem_of_cons in Hin as [Hin|Hin].
      * injection Hin as -> ->. congruence.
      * apply elem_of_nil in Hin. destruct Hin.
Qed.

(** With [math] bound the buy reaches the exchange; the order raises and
    nothing is recorded.  The sell of an open position likewise. *)
Lemma failed_order_keeps_ledger_witness :
  (exists o w' q,
     execute_buy_order ("math" :: module_globals Sample.star) Sample.cfg
       (Sample.oversold 50 (Raise BinanceAPIException)) 10 start
       = (Ok o, w') /\
     Called_create_order SIDE_BUY q ∈ effects w' /\
     returned o = false /\ self w' = self start) /\
  (exists o w' q,
     execute_sell_order Sample.cfg
       (Sample.overbought (Raise BinanceAPIException)) 31 Sample.long
       = (Ok o, w') /\
     Called_create_order SIDE_SELL q ∈ effects w' /\
     returned o = false /\ self w' = self Sample.long).
Proof.
  destruct (failed_order_keeps_ledger ("math" :: module_globals Sample.star)
              Sample.cfg (Sample.oversold 50 (Raise BinanceAPIException))
              10 start) as [(o & w' & Hrun & Hkeep) _].
  destruct (failed_order_keeps_ledger [] Sample.cfg
              (Sample.overbought (Raise BinanceAPIException))
              31 Sample.long) as [_ (o2 & w2 & Hrun2 & Hkeep2)].
  split.
  - exists o, w', (pyround 5 3). split; [exact Hrun|].
    vm_compute in Hrun. injection Hrun as <- <-.
    split; [vm_compute; do 2 apply list_elem_of_further;
            apply list_elem_of_here|].
    eapply (Hkeep _ SIDE_BUY (pyround 5 3) BinanceAPIException);
      [reflexivity| |reflexivity].
    do 2 apply list_elem_of_further. apply list_elem_of_here.
  - exists o2, w2, 5. split; [exact Hrun2|].
    vm_compute in Hrun2. injection Hrun2 as <- <-.
    split; [apply list_elem_of_here|].
    eapply (Hkeep2 _ SIDE_SELL 5 BinanceAPIException);
      [reflexivity| |reflexivity].
    apply list_elem_of_here.
Defined.

(** ** The claims about the trading cycle *)

(** C7. After any number of trading cycles from the initial state, whatever
    the exchange answers, the position is open exactly when there is one
    more BUY than SELL records, and then its quantity and buy price are
    those of the most recent BUY not closed by a SELL. *)
Theorem position_matches_ledger sqrt g cfg clients :
  ledger_consistent (self (cycles sqrt g cfg clients start).2) /\
  ledger_consistent (self (run sqrt g cfg clients start).2).
Proof.
  assert (ledger_consistent (self (cycles sqrt g cfg clients start).2)) as H
    by apply ledger_inv_consistent, cycles_ledger_inv, ledger_inv_init.
  split; [exact H|].
  unfold run. destruct (cycles sqrt g cfg clients start) as [r w'].
  exact H.
Qed.

(** C8. For an open position the profit-taking condition alone decides:
    when it holds the branch taken is the profit exit, which sells at the
    current price, whatever the loss; the stop-loss branch is taken only
    when the condition is false. *)
Theorem profit_exit_precedes_stop_loss cfg p rsi upper_band lower_band price :
  Long p ->
  (Fl.gt rsi (Fin (rsi_overbought cfg)) = true \/
   Fl.ge (Fin price) (Fl.mul upper_band (Fin 0.98)) = true ->
   trading_signal cfg p rsi upper_band lower_band price = Ok EXIT_PROFIT /\
   forall g client w,
     pos (self w) = p ->
     exists o w2,
       execute_sell_order cfg client price w = (Ok o, w2) /\
       trade_on_signal g cfg client rsi upper_band lower_band price w
       = save_transactions w2) /\
  (trading_signal cfg p rsi upper_band lower_band price = Ok EXIT_STOPLOSS ->
   Fl.gt rsi (Fin (rsi_overbought cfg)) = false /\
   Fl.ge (Fin price) (Fl.mul upper_band (Fin 0.98)) = false).
Proof.
  intros (Hin & _ & Hprice).
  assert (Qeqb (buy_price p) 0 = false) as Hnz by (apply Qeqb_neq; lra).
  split.
  - intros Hcond.
    assert (trading_signal cfg p rsi upper_band lower_band price
            = Ok EXIT_PROFIT) as Hsig.
    { unfold trading_signal, pydiv. rewrite Hin, Hnz. cbn [negb andb].
      destruct Hcond as [-> | ->]; [reflexivity|].
      rewrite orb_true_r. reflexivity. }
    split; [assumption|].
    intros g client w <-.
    pose proof (trade_on_signal_run g cfg client rsi upper_band lower_band
                  price w) as Hrun.
    rewrite Hsig in Hrun. exact Hrun.
  - unfold trading_signal, pydiv. rewrite Hin, Hnz. cbn [negb andb].
    destruct (Fl.gt rsi _); cbn [orb]; [discriminate|].
    destruct (Fl.ge _ _); [discriminate|].
    intros _. split; reflexivity.
Qed.

(** Bought at 100, price 94, RSI 75 over the threshold 70: the loss of 6%
    is beyond the 5% stop, and the branch taken is the profit exit. *)
Lemma profit_exit_precedes_stop_loss_witness :
  let p := {| in_position := true; quantity := 5; buy_price := 100 |} in
  Long p /\
  Qltb ((94 - buy_price p) / buy_price p * 100)
       (- max_loss_percent Sample.cfg) = true /\
  trading_signal Sample.cfg p (Fin 75) (Fin 200) (Fin 90) 94 = Ok EXIT_PROFIT.
Proof.
  assert (Long {| in_position := true; quantity := 5; buy_price := 100 |})
    as HL by (split; [reflexivity|split; reflexivity]).
  split; [exact HL|]. split; [reflexivity|].
  apply (profit_exit_precedes_stop_loss Sample.cfg _ (Fin 75) (Fin 200)
           (Fin 90) 94 HL).
  left. reflexivity.
Defined.

(** ** The claims about the indicators *)

(** C3, as stated, fails: nothing intercepts the division by a zero
    average loss.  Closes 30, 20, 10, 10, 10, 15 with period 2: at index 4
    the window is full, the average loss is zero (so is the average gain),
    and the RSI that [calculate_rsi] returns there is NaN, not 100. *)
Lemma rsi_nan_on_flat_window :
  let close := Fin <$> [30; 20; 10; 10; 10; 15] in
  (calculate_rsi 1%positive 2 (Sample.closes [30; 20; 10; 10; 10; 15])).1
  = Ok (rsi_series close 2) /\
  (exists z, rsi_avg_loss close 2 !! 4%nat = Some (Fin z) /\ z == 0) /\
  rsi_series close 2 !! 4%nat = Some NaN.
Proof.
  cbv zeta. split; [reflexivity|]. split.
  - eexists. split; [vm_compute; reflexivity|reflexivity].
  - vm_compute. reflexivity.
Qed.

(** C3, amended.  Wherever the rolling average loss is zero, the RSI
    computed by [calculate_rsi] is what the arithmetic of doubles makes of
    the division by zero: 100 when the rolling average gain is positive
    (the quotient is an infinity), NaN when the average gain is zero too or
    is itself undefined.  The average gain is never negative. *)
Theorem rsi_when_no_loss data period h close rsi i z x :
  (h !!! data) !! "close" = Some close ->
  calculate_rsi data period h = (Ok rsi, h) ->
  rsi_avg_loss close period !! i = Some (Fin z) ->
  z == 0 ->
  rsi !! i = Some x ->
  exists avg_gain,
    rsi_avg_gain close period !! i = Some avg_gain /\
    match avg_gain with
    | Fin g =>
        0 <= g /\
        (0 < g -> exists q, x = Fin q /\ q == 100) /\
        (g == 0 -> x = NaN)
    | NaN => x = NaN
    | PInf | NInf => False
    end.
Proof.
  intros Hclose Hrun Hloss Hz Hx.
  rewrite (calculate_rsi_run _ _ _ _ Hclose) in Hrun.
  injection Hrun as <-.
  destruct (rsi_series_lookup _ _ _ _ Hx) as (ag & al & Hg & Hl & ->).
  rewrite Hloss in Hl. injection Hl as <-.
  pose proof (rolling_mean_nonneg _ _ _ _ (rsi_gain_nonneg close) Hg) as Hag.
  exists ag. split; [exact Hg|].
  destruct ag as [g| | |]; simpl in Hag; try contradiction;
    [|reflexivity].
  split; [exact Hag|].
  unfold rsi_of_rs, Fl.div.
  assert (Qeqb z 0 = true) as -> by (apply Qeqb_eq; exact Hz).
  unfold Fl.sign. split.
  - intros Hpos. apply Qgt_alt in Hpos. rewrite Hpos.
    cbn [Fl.signed_inf Fl.add Fl.div Fl.sub Fl.neg].
    eexists. split; [reflexivity|]. lra.
  - intros Hzero. apply Qeq_alt in Hzero. rewrite Hzero. reflexivity.
Qed.

(** The same closes: at index 5 the window has a gain and no loss, the RSI
    is 100. *)
Lemma rsi_when_no_loss_witness :
  exists z g q,
    rsi_avg_loss (Fin <$> [30; 20; 10; 10; 10; 15]) 2 !! 5%nat
      = Some (Fin z) /\
    z == 0 /\
    rsi_avg_gain (Fin <$> [30; 20; 10; 10; 10; 15]) 2 !! 5%nat
      = Some (Fin g) /\
    0 < g /\
    rsi_series (Fin <$> [30; 20; 10; 10; 10; 15]) 2 !! 5%nat
      = Some (Fin q) /\
    q == 100.
Proof.
  assert (rsi_avg_gain (Fin <$> [30; 20; 10; 10; 10; 15]) 2 !! 5%nat
          = Some (Fin ((0 + (5 + 0)) / 2))) as Hgain
    by (vm_compute; reflexivity).
  destruct (rsi_when_no_loss 1%positive 2
              (Sample.closes [30; 20; 10; 10; 10; 15])
              (Fin <$> [30; 20; 10; 10; 10; 15])
              (rsi_series (Fin <$> [30; 20; 10; 10; 10; 15]) 2)
              5%nat (0 # 2) (Fin 100))
    as (ag & Hag & Hcase);
    [reflexivity|reflexivity|reflexivity|reflexivity|reflexivity|].
  rewrite Hgain in Hag. injection Hag as <-.
  destruct Hcase as (_ & H100 & _).
  destruct (H100 ltac:(reflexivity)) as (q & Hq & Hq100).
  exists (0 # 2), ((0 + (5 + 0)) / 2), q.
  split; [vm_compute; reflexivity|].
  split; [reflexivity|].
  split; [exact Hgain|].
  split; [reflexivity|].
  split; [|exact Hq100].
  injection Hq as <-. vm_compute. reflexivity.
Defined.



(** ** The claim about the order quantity *)

(** C2, as stated, fails: the quantity 0.0016 with the step 0.001 becomes
    0.002, above the input; and with the step 0.3 the quantity 1 stays 1,
    which is no multiple of the step. *)
Lemma round_to_step_not_rounded_down :
  (exists r, round_to_step 0.0016 0.001 = Ok r /\ 0.0016 < r /\
             ~ rounded_down 0.0016 0.001 r) /\
  (exists r, round_to_step 1 0.3 = Ok r /\
             ~ exists n : Z, r == inject_Z n * 0.3).
Proof.
  split.
  - eexists. split; [vm_compute; reflexivity|].
    split; [reflexivity|].
    intros [Hle _]. vm_compute in Hle. apply Hle. reflexivity.
  - eexists. split; [vm_compute; reflexivity|].
    intros [n Hn]. unfold Qeq in Hn. simpl in Hn. lia.
Qed.

(** ** The claim about side effects *)

Ltac col_lookup Hc :=
  rewrite ?lookup_total_insert_eq, ?lookup_insert_ne by done;
  first [exact Hc | apply lookup_insert_eq].

Section Frames.

Variable sqrt : Q -> Q.
Variables (data : loc) (period : nat) (std_dev : Q).

Lemma get_col_run c s h :
  (h !!! data) !! c = Some s -> get_col data c h = (Ok s, h).
Proof. intros H. unfold get_col. rewrite H. reflexivity. Qed.

(** With a [close] column the four assignments are made, on the frame
    received. *)
Lemma calculate_bollinger_bands_run h close :
  (h !!! data) !! "close" = Some close ->
  calculate_bollinger_bands sqrt data period std_dev h =
  (Ok data,
   <[data := bollinger_columns sqrt period std_dev close (h !!! data)]> h).
Proof.
  intros Hc. unfold calculate_bollinger_bands, set_col, modify, bind, ret.
  rewrite (get_col_run "close" close h Hc). cbv beta iota.
  rewrite (get_col_run "close" close) by col_lookup Hc. cbv beta iota.
  rewrite (get_col_run "sma" (rolling_mean period close))
    by col_lookup Hc.
  cbv beta iota.
  rewrite (get_col_run "std" (rolling_std sqrt period close))
    by col_lookup Hc.
  cbv beta iota.
  rewrite (get_col_run "sma" (rolling_mean period close))
    by col_lookup Hc.
  cbv beta iota.
  rewrite (get_col_run "std" (rolling_std sqrt period close))
    by col_lookup Hc.
  cbv beta iota.
  rewrite !lookup_total_insert_eq, !insert_insert_eq. reflexivity.
Qed.

(** Without one the first read raises and nothing is written. *)
Lemma calculate_bollinger_bands_no_close h :
  (h !!! data) !! "close" = None ->
  calculate_bollinger_bands sqrt data period std_dev h = (Raise KeyError, h).
Proof.
  intros Hc. unfold calculate_bollinger_bands, bind, get_col.
  rewrite Hc. reflexivity.
Qed.

End Frames.

(** C9, as stated, fails for [calculate_bollinger_bands]: the frame passed
    has a column [sma] after the call that it did not have before. *)
Lemma bollinger_bands_writes_its_argument :
  let h := Sample.closes [1; 2; 3] in
  let h' := (calculate_bollinger_bands Sample.sqrt 1%positive 3 2 h).2 in
  (h !!! 1%positive) !! "sma" = None /\
  (h' !!! 1%positive) !! "sma" = Some [NaN; NaN; Fin (6 / 3)] /\
  h' <> h.
Proof.
  assert ((Sample.closes [1; 2; 3] !!! 1%positive) !! "sma" = None) as Hnone
    by (vm_compute; reflexivity).
  assert (((calculate_bollinger_bands Sample.sqrt 1%positive 3 2
              (Sample.closes [1; 2; 3])).2 !!! 1%positive) !! "sma"
          = Some [NaN; NaN; Fin (6 / 3)]) as Hsome
    by (vm_compute; reflexivity).
  cbv zeta. split; [exact Hnone|]. split; [exact Hsome|].
  intros Heq. rewrite Heq, Hnone in Hsome. discriminate.
Qed.

(** C9, amended.  [calculate_rsi] leaves the store of frames as it was.
    [calculate_bollinger_bands] writes into the frame it receives: the
    columns [sma], [std], [upper_band] and [lower_band] are added or
    replaced; every other column of that frame, [close] among them, and
    every other frame are unchanged, and the frame returned is the one
    received. *)
Theorem indicators_frame_effect sqrt data period std_dev h :
  (calculate_rsi data period h).2 = h /\
  (forall r h',
     calculate_bollinger_bands sqrt data period std_dev h = (r, h') ->
     (forall l, l <> data -> h' !! l = h !! l) /\
     (forall c, c ∉ ["sma"; "std"; "upper_band"; "lower_band"] ->
                (h' !!! data) !! c = (h !!! data) !! c) /\
     (forall close, (h !!! data) !! "close" = Some close ->
        let sma := rolling_mean period close in
        let sd := rolling_std sqrt period close in
        r = Ok data /\
        (h' !!! data) !! "sma" = Some sma /\
        (h' !!! data) !! "std" = Some sd /\
        (h' !!! data) !! "upper_band"
          = Some (zip_with Fl.add sma (scale std_dev sd)) /\
        (h' !!! data) !! "lower_band"
          = Some (zip_with Fl.sub sma (scale std_dev sd))) /\
     ((h !!! data) !! "close" = None -> r = Raise KeyError /\ h' = h)).
Proof.
  split.
  - unfold calculate_rsi, bind, get_col, ret.
    destruct ((h !!! data) !! "close"); reflexivity.
  - intros r h' Hrun.
    destruct ((h !!! data) !! "close") as [close|] eqn:Hc.
    + rewrite (calculate_bollinger_bands_run _ _ _ _ _ _ Hc) in Hrun.
      injection Hrun as <- <-. split_and!.
      * intros l Hl. apply lookup_insert_ne. congruence.
      * intros c Hnot. rewrite lookup_total_insert_eq.
        unfold bollinger_columns.
        rewrite !lookup_insert_ne; [reflexivity|..];
          intros <-; apply Hnot;
          repeat first [apply list_elem_of_here|apply list_elem_of_further].
      * intros close' [= <-]. cbv zeta. rewrite lookup_total_insert_eq.
        unfold bollinger_columns. cbv zeta. split; [reflexivity|].
        split; [col_lookup Hc|]. split; [col_lookup Hc|].
        split; [col_lookup Hc|col_lookup Hc].
      * discriminate.
    + rewrite (calculate_bollinger_bands_no_close _ _ _ _ _ Hc) in Hrun.
      injection Hrun as <- <-.
      split_and!; [reflexivity..|discriminate|intros _; split; reflexivity].
Qed.

Lemma indicators_frame_effect_witness :
  let h := Sample.closes [1; 2; 3] in
  exists h',
    calculate_bollinger_bands Sample.sqrt 1%positive 3 2 h
      = (Ok 1%positive, h') /\
    (h' !!! 1%positive) !! "close" = (h !!! 1%positive) !! "close" /\
    (h' !!! 1%positive) !! "sma" = Some (rolling_mean 3 (Fin <$> [1; 2; 3])) /\
    (h' !!! 1%positive) !! "upper_band"
      = Some (zip_with Fl.add (rolling_mean 3 (Fin <$> [1; 2; 3]))
                (scale 2 (rolling_std Sample.sqrt 3 (Fin <$> [1; 2; 3])))) /\
    (h' !!! 1%positive) !! "lower_band"
      = Some (zip_with Fl.sub (rolling_mean 3 (Fin <$> [1; 2; 3]))
                (scale 2 (rolling_std Sample.sqrt 3 (Fin <$> [1; 2; 3])))).
Proof.
  cbv zeta.
  destruct (calculate_bollinger_bands Sample.sqrt 1%positive 3 2
              (Sample.closes [1; 2; 3])) as [r h'] eqn:Hrun.
  destruct (indicators_frame_effect Sample.sqrt 1%positive 3 2
              (Sample.closes [1; 2; 3])) as [_ Hbb].
  destruct (Hbb r h' Hrun) as (_ & Hcols & Hclose & _).
  destruct (Hclose (Fin <$> [1; 2; 3])) as (-> & Hsma & _ & Hup & Hlo);
    [vm_compute; reflexivity|].
  exists h'. split; [reflexivity|].
  split; [|split; [exact Hsma|split; [exact Hup|exact Hlo]]].
  apply Hcols. apply (bool_decide_unpack _). vm_compute. exact I.
Defined.

(** ** The claims about guards and persistence *)

Ltac not_an_effect Hin :=
  simpl in Hin;
  repeat (apply elem_of_cons in Hin as [Hin|Hin]; [discriminate Hin|]);
  apply elem_of_nil in Hin; destruct Hin.

(** C4, as stated, fails for [execute_buy_order]: called with the position
    open it does not refuse the call, it queries the balance and fails on
    the balance. *)
Lemma buy_order_has_no_position_guard :
  in_position (pos (self Sample.long)) = true /\
  exists o w',
    execute_buy_order (module_globals Sample.star) Sample.cfg
      (Sample.oversold 5 (Ok tt)) 10 Sample.long = (Ok o, w') /\
    o = InsufficientBalance /\
    position_guard o = false /\
    effects w' = [Called_get_asset_balance].
Proof.
  split; [reflexivity|].
  eexists _, _. split; [vm_compute; reflexivity|].
  split; [reflexivity|]. split; reflexivity.
Qed.

(** With [math] bound and the balance there, the same call buys again and
    replaces the open position. *)
Example buy_while_long_buys_again :
  exists w',
    execute_buy_order ("math" :: module_globals Sample.star) Sample.cfg
      (Sample.oversold 50 (Ok tt)) 10 Sample.long = (Ok Executed, w') /\
    count_type BUY (transactions (self w')) = 2%nat /\
    count_type SELL (transactions (self w')) = 0%nat.
Proof.
  eexists. split; [vm_compute; reflexivity|]. split; reflexivity.
Qed.

(** C4, amended.  [execute_sell_order] with no position open returns
    [False] through its guard and changes nothing: no order, no
    transaction, no change of the position.  [execute_buy_order] has no
    such guard; it is the trading cycle that executes a buy (whose first
    step is the balance query) only when no position is open. *)
Theorem sell_guarded_buy_only_when_flat sqrt g cfg client w :
  (forall price,
     Flat (pos (self w)) ->
     execute_sell_order cfg client price w = (Ok NoOpenPosition, w)) /\
  (forall r w' es,
     analyze_and_trade sqrt g cfg client w = (r, w') ->
     effects w' = effects w ++ es ->
     Called_get_asset_balance ∈ es ->
     Flat (pos (self w))).
Proof.
  split.
  - intros price Hflat. apply sell_flat. exact Hflat.
  - intros r w' es Hrun Heff Hin.
    destruct (analyze_and_trade_run sqrt g cfg client w)
      as (r0 & w0 & es0 & Hrun0 & Heff0 & Hend).
    rewrite Hrun in Hrun0. injection Hrun0 as <- <-.
    rewrite Heff in Heff0. apply app_inv_head in Heff0. subst es0.
    inversion Hend as [? ? ? _ [Hes|Hes]
                      |? _
                      |price o w1 w2 es2 ? Hflat
                      |price o w1 w2 es2 ? Hlong _ _ Hsell Heff2]; subst.
    + not_an_effect Hin.
    + not_an_effect Hin.
    + not_an_effect Hin.
    + exact Hflat.
    + destruct (sell_cases cfg client price w1)
        as (o' & w2' & Hsell' & _ & (es2' & Heff2' & Hshape) & _).
      rewrite Hsell in Hsell'. injection Hsell' as <- <-.
      rewrite Heff2 in Heff2'. apply app_inv_head in Heff2'. subst es2'.
      destruct Hshape as [-> | [_ ->]]; not_an_effect Hin.
Qed.

Lemma sell_guarded_buy_only_when_flat_witness :
  let cycle :=
    analyze_and_trade Sample.sqrt (module_globals Sample.star) Sample.cfg
      (Sample.oversold 50 (Ok tt)) start in
  (execute_sell_order Sample.cfg (Sample.overbought (Ok tt)) 31 start
   = (Ok NoOpenPosition, start)) /\
  Called_get_asset_balance ∈ effects cycle.2 /\
  Flat (pos (self start)).
Proof.
  cbv zeta.
  destruct (sell_guarded_buy_only_when_flat Sample.sqrt
              (module_globals Sample.star) Sample.cfg
              (Sample.overbought (Ok tt)) start) as [Hsell _].
  destruct (sell_guarded_buy_only_when_flat Sample.sqrt
              (module_globals Sample.star) Sample.cfg
              (Sample.oversold 50 (Ok tt)) start) as [_ Hbuy].
  split; [apply Hsell; reflexivity|].
  assert (effects
            (analyze_and_trade Sample.sqrt (module_globals Sample.star)
               Sample.cfg (Sample.oversold 50 (Ok tt)) start).2
          = effects start ++
            [Called_get_historical_klines; Called_get_symbol_ticker;
             Called_get_asset_balance; Called_get_symbol_info;
             Wrote_transactions []]) as Heff
    by (vm_compute; reflexivity).
  assert (Called_get_asset_balance ∈
            [Called_get_historical_klines; Called_get_symbol_ticker;
             Called_get_asset_balance; Called_get_symbol_info;
             Wrote_transactions []]) as Hin
    by (do 2 apply list_elem_of_further; apply list_elem_of_here).
  split; [rewrite Heff; exact Hin|].
  exact (Hbuy _ _ _ (surjective_pairing _) Heff Hin).
Defined.

(** C5, as stated, fails: with no position open and a balance of 5 under
    the minimum of 10, a cycle that reaches the buy fails on the balance
    and leaves the ledger as it was, and then writes the transaction
    file. *)
Lemma insufficient_balance_cycle_writes_file :
  let cycle :=
    analyze_and_trade Sample.sqrt (module_globals Sample.star) Sample.cfg
      (Sample.oversold 5 (Ok tt)) start in
  Flat (pos (self start)) /\
  get_asset_balance (Sample.oversold 5 (Ok tt)) = Ok 5 /\
  5 < min_order_value Sample.cfg /\
  cycle.1 = Ok tt /\
  self cycle.2 = self start /\
  effects cycle.2 =
    [Called_get_historical_klines; Called_get_symbol_ticker;
     Called_get_asset_balance; Wrote_transactions []].
Proof.
  cbv zeta. split_and!; try reflexivity; vm_compute; reflexivity.
Qed.

(** C5, amended.  With no position open and the balance under
    [min_order_value], [execute_buy_order] returns [False] through the
    insufficient-balance guard, having only queried the balance, and the
    ledger is unchanged; the cycle in which this happens still ends by
    writing the transaction file, with the unchanged transactions. *)
Theorem insufficient_balance_keeps_ledger sqrt g cfg client w balance :
  Flat (pos (self w)) ->
  get_asset_balance client = Ok balance ->
  balance < min_order_value cfg ->
  (forall price,
     exists w',
       execute_buy_order g cfg client price w = (Ok InsufficientBalance, w') /\
       self w' = self w /\
       effects w' = effects w ++ [Called_get_asset_balance]) /\
  (forall r w' es,
     analyze_and_trade sqrt g cfg client w = (r, w') ->
     effects w' = effects w ++ es ->
     self w' = self w /\
     (Called_get_asset_balance ∈ es ->
      r = Ok tt /\
      es = [Called_get_historical_klines; Called_get_symbol_ticker;
            Called_get_asset_balance;
            Wrote_transactions (transactions (self w))])).
Proof.
  intros Hflat Hbal Hlt. split.
  - intros price. eexists. split; [eapply buy_insufficient; eassumption|].
    split; reflexivity.
  - intros r w' es Hrun Heff.
    destruct (analyze_and_trade_run sqrt g cfg client w)
      as (r0 & w0 & es0 & Hrun0 & Heff0 & Hend).
    rewrite Hrun in Hrun0. injection Hrun0 as <- <-.
    rewrite Heff in Heff0. apply app_inv_head in Heff0. subst es0.
    inversion Hend as [? ? ? Hself [Hes|Hes]
                      |? Hself
                      |price o w1 w2 es2 ? _ _ Hself1 Hbuy Heff2 Hself2
                      |price o w1 w2 es2 ? Hlong]; subst.
    + split; [assumption|]. intros Hin. not_an_effect Hin.
    + split; [assumption|]. intros Hin. not_an_effect Hin.
    + split; [assumption|]. intros Hin. not_an_effect Hin.
    + rewrite (buy_insufficient g cfg client price w1 balance Hbal Hlt)
        in Hbuy.
      injection Hbuy as <- <-. simpl in Heff2, Hself2.
      apply app_inv_head in Heff2. subst es2.
      split; [congruence|]. intros _. split; [reflexivity|].
      simpl. rewrite Hself1. reflexivity.
    + unfold Flat in Hflat. congruence.
Qed.

Lemma insufficient_balance_keeps_ledger_witness :
  let cycle :=
    analyze_and_trade Sample.sqrt (module_globals Sample.star) Sample.cfg
      (Sample.oversold 5 (Ok tt)) start in
  cycle.1 = Ok tt /\
  self cycle.2 = self start /\
  effects cycle.2 =
    [Called_get_historical_klines; Called_get_symbol_ticker;
     Called_get_asset_balance;
     Wrote_transactions (transactions (self start))].
Proof.
  cbv zeta.
  destruct (insufficient_balance_keeps_ledger Sample.sqrt
              (module_globals Sample.star) Sample.cfg
              (Sample.oversold 5 (Ok tt)) start 5)
    as [_ Hcycle]; [reflexivity|reflexivity|reflexivity|].
  assert (effects
            (analyze_and_trade Sample.sqrt (module_globals Sample.star)
               Sample.cfg (Sample.oversold 5 (Ok tt)) start).2
          = effects start ++
            [Called_get_historical_klines; Called_get_symbol_ticker;
             Called_get_asset_balance; Wrote_transactions []]) as Heff
    by (vm_compute; reflexivity).
  destruct (Hcycle _ _ _ (surjective_pairing _) Heff) as [Hself Hes].
  destruct Hes as [Hr _];
    [do 2 apply list_elem_of_further; apply list_elem_of_here|].
  split; [exact Hr|]. split; [exact Hself|exact Heff].
Defined.

(** ** What the module as it is can reach *)

(** Without [math] no cycle ever changes the ledger: the initial state is
    the only one reached, and the invariant of C7 holds of it. *)
Lemma cycles_never_trade sqrt star cfg clients :
  "math" ∉ star ->
  forall w, self w = init ->
    self (cycles sqrt (module_globals star) cfg clients w).2 = init.
Proof.
  intros Hstar. apply math_unbound in Hstar.
  induction clients as [|client rest IH]; intros w Hw; simpl; [assumption|].
  unfold bind.
  destruct (analyze_and_trade_run sqrt (module_globals star) cfg client w)
    as (r & w' & es & Hrun & _ & Hend).
  rewrite Hrun.
  assert (self w' = init) as Hw'.
  { inversion Hend as [? ? ? Hself _
                      |? Hself
                      |price o w1 w2 es2 ? _ _ Hself1 Hbuy _ Hself2
                      |price o w1 w2 es2 ? Hlong]; subst;
      try congruence.
    - destruct (buy_cases (module_globals star) cfg client price w1)
        as (o' & w2' & Hbuy' & _ & _ & Hcase).
      rewrite Hbuy in Hbuy'. injection Hbuy' as <- <-.
      destruct Hcase as [[_ Hs] | (_ & Hmath & _)]; [congruence|contradiction].
    - rewrite Hw in Hlong. discriminate. }
  destruct r as [[]|e]; [apply IH; assumption|exact Hw'].
Qed.

(** With [math] bound the position opens and closes: a buy on the first
    cycle, a sell on the second. *)
Example round_trip_with_math :
  let g := "math" :: module_globals Sample.star in
  let after1 :=
    self (cycles Sample.sqrt g Sample.cfg
            [Sample.oversold 50 (Ok tt)] start).2 in
  let after2 :=
    self (cycles Sample.sqrt g Sample.cfg
            [Sample.oversold 50 (Ok tt); Sample.overbought (Ok tt)] start).2 in
  in_position (pos after1) = true /\
  tx_type_of <$> transactions after1 = [BUY] /\
  in_position (pos after2) = false /\
  tx_type_of <$> transactions after2 = [BUY; SELL].
Proof. cbv zeta. split_and!; vm_compute; reflexivity. Qed.

(** * Further properties of the code *)

(** ** Lengths and warm-up of the indicator series *)

Lemma length_diff_from prev s : length (diff_from prev s) = length s.
Proof.
  revert prev. induction s as [|x s IH]; intros prev; simpl;
    [reflexivity|]. rewrite IH. reflexivity.
Qed.

Lemma length_diff s : length (diff s) = length s.
Proof. destruct s; simpl; [reflexivity|]. rewrite length_diff_from. reflexivity. Qed.

Lemma length_rolling w agg s : length (rolling w agg s) = length s.
Proof. unfold rolling. apply length_imap. Qed.

Lemma length_rsi_series close period :
  length (rsi_series close period) = length close.
Proof.
  unfold rsi_series, rsi_avg_gain, rsi_avg_loss, rolling_mean, rsi_gain,
    rsi_loss, mask.
  rewrite length_fmap, length_zip_with, !length_rolling, !length_fmap,
    length_diff.
  lia.
Qed.

(** Before the window is full a rolling aggregate is NaN. *)
Lemma rolling_nan_before w agg s i x :
  (S i < w)%nat -> rolling w agg s !! i = Some x -> x = NaN.
Proof.
  intros Hi. unfold rolling. rewrite list_lookup_imap.
  destruct (s !! i); simpl; [|discriminate].
  destruct (Nat.leb_spec w (S i)); [lia|]. congruence.
Qed.

(** A window that reaches back to a NaN at index 0 gives NaN. *)
Lemma rolling_nan_head w agg s i x :
  (i < w)%nat -> rolling w agg (NaN :: s) !! i = Some x -> x = NaN.
Proof.
  intros Hi. unfold rolling. rewrite list_lookup_imap.
  destruct ((NaN :: s) !! i); simpl; [|discriminate].
  destruct (Nat.leb_spec w (S i)) as [Hw|Hw]; [|congruence].
  assert (w = S i) as -> by lia.
  unfold window. replace (S i - S i)%nat with 0%nat by lia.
  simpl. congruence.
Qed.

Lemma rsi_avg_gain_warm_up close period i x :
  (i < period)%nat -> rsi_avg_gain close period !! i = Some x -> x = NaN.
Proof.
  unfold rsi_avg_gain, rolling_mean, rsi_gain, mask.
  destruct close as [|c close]; simpl; [discriminate|].
  apply rolling_nan_head.
Qed.

Lemma rsi_series_warm_up close period i x :
  (i < period)%nat -> rsi_series close period !! i = Some x -> x = NaN.
Proof.
  intros Hi Hx.
  destruct (rsi_series_lookup _ _ _ _ Hx) as (ag & al & Hg & _ & ->).
  rewrite (rsi_avg_gain_warm_up _ _ _ _ Hi Hg). reflexivity.
Qed.

(** X1. [calculate_rsi] returns one value per close, and the first [period]
    of them are NaN: the warm-up is left undefined, and a series of at most
    [period] closes gives NaN everywhere instead of failing. *)
Theorem rsi_warm_up data period h close :
  (h !!! data) !! "close" = Some close ->
  exists rsi,
    calculate_rsi data period h = (Ok rsi, h) /\
    length rsi = length close /\
    (forall i x, (i < period)%nat -> rsi !! i = Some x -> x = NaN) /\
    ((length close <= period)%nat ->
     forall i x, rsi !! i = Some x -> x = NaN).
Proof.
  intros Hc. exists (rsi_series close period).
  split; [apply calculate_rsi_run; exact Hc|].
  split; [apply length_rsi_series|].
  split; [intros i x; apply rsi_series_warm_up|].
  intros Hshort i x Hx. apply (rsi_series_warm_up close period i); [|exact Hx].
  apply lookup_lt_Some in Hx. rewrite length_rsi_series in Hx. lia.
Qed.

Lemma rsi_warm_up_witness :
  exists rsi,
    calculate_rsi 1%positive 2 (Sample.closes [30; 20])
      = (Ok rsi, Sample.closes [30; 20]) /\
    rsi = [NaN; NaN].
Proof.
  destruct (rsi_warm_up 1%positive 2 (Sample.closes [30; 20])
              (Fin <$> [30; 20])) as (rsi & Hrun & Hlen & _ & Hnan);
    [reflexivity|].
  exists rsi. split; [exact Hrun|].
  destruct rsi as [|a [|b [|c rsi]]]; try discriminate Hlen.
  rewrite (Hnan ltac:(simpl; lia) 0%nat a eq_refl).
  rewrite (Hnan ltac:(simpl; lia) 1%nat b eq_refl).
  reflexivity.
Defined.

(** ** The other ends of the RSI scale *)

Lemma rsi_of_rs_no_gain a b :
  a == 0 -> 0 <= b ->
  (0 < b -> exists q, rsi_of_rs (Fl.div (Fin a) (Fin b)) = Fin q /\ q == 0) /\
  (b == 0 -> rsi_of_rs (Fl.div (Fin a) (Fin b)) = NaN).
Proof.
  intros Ha Hb. unfold rsi_of_rs, Fl.div. split.
  - intros Hpos.
    assert (Qeqb b 0 = false) as -> by (apply Qeqb_neq; lra).
    cbn [Fl.add Fl.div].
    assert (a / b == 0) as Hz by (rewrite Ha; field; lra).
    assert (Qeqb (1 + a / b) 0 = false) as -> by (apply Qeqb_neq; lra).
    cbn [Fl.sub Fl.neg Fl.add]. eexists. split; [reflexivity|].
    rewrite Hz. reflexivity.
  - intros Hz.
    assert (Qeqb b 0 = true) as -> by (apply Qeqb_eq; exact Hz).
    unfold Fl.sign. apply Qeq_alt in Ha. rewrite Ha. reflexivity.
Qed.

(** X2. The rest of the RSI scale: with a zero average gain the RSI is 0
    when the average loss is positive, and NaN when the average loss is
    zero too (nothing moved in the window). *)
Theorem rsi_without_gain close period i g l x :
  rsi_avg_gain close period !! i = Some (Fin g) ->
  rsi_avg_loss close period !! i = Some (Fin l) ->
  g == 0 ->
  rsi_series close period !! i = Some x ->
  (0 < l -> exists q, x = Fin q /\ q == 0) /\
  (l == 0 -> x = NaN).
Proof.
  intros Hg Hl Hz Hx.
  destruct (rsi_series_lookup _ _ _ _ Hx) as (ag & al & Hg' & Hl' & ->).
  rewrite Hg in Hg'. injection Hg' as <-.
  rewrite Hl in Hl'. injection Hl' as <-.
  pose proof (rolling_mean_nonneg _ _ _ _ (rsi_loss_nonneg close) Hl) as Hl0.
  simpl in Hl0. apply rsi_of_rs_no_gain; assumption.
Qed.

(** Closes 30, 20, 10, 10, 10 with period 2: at index 2 only losses, at
    index 4 no move at all. *)
Lemma rsi_without_gain_witness :
  let close := Fin <$> [30; 20; 10; 10; 10] in
  (exists q, rsi_series close 2 !! 2%nat = Some (Fin q) /\ q == 0) /\
  rsi_series close 2 !! 4%nat = Some NaN.
Proof.
  cbv zeta. split.
  - destruct (rsi_without_gain (Fin <$> [30; 20; 10; 10; 10]) 2 2%nat
                (0 / 2) ((10 + (10 + 0)) / 2)
                (rsi_of_rs (Fl.div (Fin (0 / 2)) (Fin ((10 + (10 + 0)) / 2)))))
      as [H0 _]; [vm_compute; reflexivity|vm_compute; reflexivity
                 |reflexivity|vm_compute; reflexivity|].
    destruct H0 as (q & Hq & Hq0); [reflexivity|].
    exists q. split; [|exact Hq0]. rewrite <- Hq. vm_compute. reflexivity.
  - destruct (rsi_without_gain (Fin <$> [30; 20; 10; 10; 10]) 2 4%nat
                (0 / 2) (0 / 2) NaN)
      as [_ Hnan]; [vm_compute; reflexivity|vm_compute; reflexivity
                   |reflexivity|vm_compute; reflexivity|].
    vm_compute. reflexivity.
Defined.

(** ** A market that does not move *)

Lemma diff_from_replicate c n :
  diff_from (Fin c) (replicate n (Fin c)) = replicate n (Fin (c + - c)).
Proof.
  induction n as [|n IH]; simpl; [reflexivity|]. rewrite IH. reflexivity.
Qed.

Lemma Qsum_zero qs : (forall q, q ∈ qs -> q == 0) -> Qsum qs == 0.
Proof.
  induction qs as [|a qs IH]; intros H; simpl; [reflexivity|].
  rewrite (H a) by (apply elem_of_cons; left; reflexivity).
  rewrite IH; [reflexivity|].
  intros q Hq. apply H, elem_of_cons. right; exact Hq.
Qed.

Lemma rolling_mean_zero w s i x :
  (forall q, Fin q ∈ s -> q == 0) ->
  rolling_mean w s !! i = Some x ->
  x = NaN \/ exists z, x = Fin z /\ z == 0.
Proof.
  intros Hs. unfold rolling_mean, rolling. rewrite list_lookup_imap.
  destruct (s !! i) as [y|]; simpl; [|discriminate].
  intros [= <-]. destruct (w <=? S i)%nat; [|left; reflexivity].
  destruct (all_finite (window w s i)) as [qs|] eqn:Hfin; [|left; reflexivity].
  destruct qs as [|a qs]; [left; reflexivity|].
  right. eexists. split; [reflexivity|].
  rewrite (Qsum_zero (a :: qs)).
  - unfold Qdiv. apply Qmult_0_l.
  - intros q Hq. apply Hs. eapply window_elem, all_finite_elem; eassumption.
Qed.

Lemma constant_gain c n q :
  Fin q ∈ rsi_gain (replicate n (Fin c)) -> q == 0.
Proof.
  unfold rsi_gain, mask. destruct n as [|n]; simpl.
  - intros H. apply elem_of_nil in H. destruct H.
  - rewrite diff_from_replicate. intros H.
    apply elem_of_cons in H as [H|H]; [discriminate|].
    apply list_elem_of_fmap in H as (y & Hy & Hin).
    apply elem_of_replicate in Hin as [-> _]. simpl in Hy.
    destruct (Qltb (c + - c) 0); injection Hy as ->; [reflexivity|ring].
Qed.

Lemma constant_loss c n q :
  Fin q ∈ rsi_loss (replicate n (Fin c)) -> q == 0.
Proof.
  unfold rsi_loss, mask. destruct n as [|n]; simpl.
  - intros H. apply elem_of_nil in H. destruct H.
  - rewrite diff_from_replicate. intros H.
    apply elem_of_cons in H as [H|H]; [discriminate|].
    apply list_elem_of_fmap in H as (y & Hy & Hin).
    apply list_elem_of_fmap in Hin as (y' & -> & Hin).
    apply elem_of_replicate in Hin as [-> _]. unfold Fl.gt in Hy. simpl in Hy.
    destruct (Qltb 0 (c + - c)); injection Hy as ->; [reflexivity|ring].
Qed.

(** X3. On closes that are all equal the RSI is NaN at every index, for
    every period: a market that does not move gives no RSI at all (and
    hence no RSI signal), not 100 and not 50. *)
Theorem rsi_undefined_on_constant_closes c n period i x :
  rsi_series (replicate n (Fin c)) period !! i = Some x -> x = NaN.
Proof.
  intros Hx.
  destruct (rsi_series_lookup _ _ _ _ Hx) as (ag & al & Hg & Hl & ->).
  destruct (rolling_mean_zero _ _ _ _ (constant_gain c n) Hg)
    as [-> | (g & -> & Hg0)]; [reflexivity|].
  destruct (rolling_mean_zero _ _ _ _ (constant_loss c n) Hl)
    as [-> | (l & -> & Hl0)]; [reflexivity|].
  apply rsi_of_rs_no_gain; [assumption|lra|assumption].
Qed.

Lemma rsi_undefined_on_constant_closes_witness :
  rsi_series (replicate 5 (Fin 42)) 2 !! 4%nat = Some NaN.
Proof.
  assert (rsi_series (replicate 5 (Fin 42)) 2 !! 4%nat <> None) as Hsome
    by (vm_compute; discriminate).
  destruct (rsi_series (replicate 5 (Fin 42)) 2 !! 4%nat) as [x|] eqn:Hx;
    [|contradiction].
  rewrite (rsi_undefined_on_constant_closes 42 5 2 4 x Hx). reflexivity.
Defined.

(** ** Bollinger bands *)

Section Bands.

Variable sqrt : Q -> Q.
Variables (data : loc) (period : nat) (std_dev : Q).

(** The four columns after the call. *)
Lemma bollinger_columns_lookup h close :
  (h !!! data) !! "close" = Some close ->
  exists h',
    calculate_bollinger_bands sqrt data period std_dev h = (Ok data, h') /\
    let sma := rolling_mean period close in
    let sd := rolling_std sqrt period close in
    (h' !!! data) !! "sma" = Some sma /\
    (h' !!! data) !! "std" = Some sd /\
    (h' !!! data) !! "upper_band"
      = Some (zip_with Fl.add sma (scale std_dev sd)) /\
    (h' !!! data) !! "lower_band"
      = Some (zip_with Fl.sub sma (scale std_dev sd)).
Proof.
  intros Hc. eexists. split; [apply calculate_bollinger_bands_run, Hc|].
  cbv zeta. rewrite lookup_total_insert_eq. unfold bollinger_columns.
  split_and!; col_lookup Hc.
Qed.

Lemma rolling_std_value w s i x :
  rolling_std sqrt w s !! i = Some x ->
  x = NaN \/ exists v, x = Fin (sqrt v).
Proof.
  unfold rolling_std, rolling. rewrite list_lookup_imap.
  destruct (s !! i); simpl; [|discriminate]. intros [= <-].
  destruct (w <=? S i)%nat; [|left; reflexivity].
  destruct (all_finite _) as [qs|]; [|left; reflexivity].
  unfold std. destruct (sample_variance qs); eauto.
Qed.

(** The standard deviation needs two observations. *)
Lemma rolling_std_nan_small w s i x :
  (w <= 1)%nat -> rolling_std sqrt w s !! i = Some x -> x = NaN.
Proof.
  intros Hw. unfold rolling_std, rolling. rewrite list_lookup_imap.
  destruct (s !! i); simpl; [|discriminate]. intros [= <-].
  destruct (w <=? S i)%nat; [|reflexivity].
  destruct (all_finite _) as [qs|] eqn:Hfin; [|reflexivity].
  assert (length qs <= 1)%nat as Hlen.
  { assert (length qs = length (window w s i)) as ->.
    { clear -Hfin. revert qs Hfin.
      induction (window w s i) as [|y l IH]; intros qs; simpl.
      - intros [= <-]. reflexivity.
      - destruct (Fl.finite y); [|discriminate].
        destruct (all_finite l); [|discriminate].
        intros [= <-]. simpl. rewrite (IH _ eq_refl). reflexivity. }
    unfold window. rewrite length_take. lia. }
  unfold std. destruct qs as [|a [|b qs]]; simpl in *; try reflexivity. lia.
Qed.

Lemma band_lookup (f : fl -> fl -> fl) sma sd i y :
  zip_with f sma (scale std_dev sd) !! i = Some y ->
  exists m s0,
    sma !! i = Some m /\ sd !! i = Some s0 /\
    y = f m (Fl.mul s0 (Fin std_dev)).
Proof.
  rewrite lookup_zip_with. unfold scale. rewrite list_lookup_fmap.
  destruct (sma !! i) as [m|]; simpl; [|discriminate].
  destruct (sd !! i) as [s0|]; simpl; [|discriminate].
  intros [= <-]. eauto.
Qed.

End Bands.

(** X4. [calculate_bollinger_bands] on a frame with a [close] column returns
    the frame it was given with the columns [sma], [std], [upper_band] and
    [lower_band], each as long as [close]; all four are NaN until the window
    is full (index below [period - 1]), so closes fewer than the period give
    NaN everywhere instead of failing; and with a period of at most 1 the
    deviation and the bands are NaN at every index. *)
Theorem bollinger_warm_up sqrt data period std_dev h close :
  (h !!! data) !! "close" = Some close ->
  exists h',
    calculate_bollinger_bands sqrt data period std_dev h = (Ok data, h') /\
    forall c, c ∈ ["sma"; "std"; "upper_band"; "lower_band"] ->
      exists s,
        (h' !!! data) !! c = Some s /\
        length s = length close /\
        (forall i x, (S i < period)%nat -> s !! i = Some x -> x = NaN) /\
        (c <> "sma" -> (period <= 1)%nat ->
         forall i x, s !! i = Some x -> x = NaN).
Proof.
  intros Hc.
  destruct (bollinger_columns_lookup sqrt data period std_dev h close Hc)
    as (h' & Hrun & Hsma & Hstd & Hup & Hlo).
  exists h'. split; [exact Hrun|].
  intros c Hin.
  repeat (apply elem_of_cons in Hin as [-> | Hin]);
    [| | | |apply elem_of_nil in Hin; destruct Hin];
    eexists; (split; [eassumption|]);
    unfold rolling_mean, rolling_std, scale;
    (split; [rewrite ?length_zip_with, ?length_fmap, !length_rolling; lia|]).
  - split; [intros i x Hi; apply rolling_nan_before; exact Hi|].
    intros Hne. contradiction.
  - split; [intros i x Hi; apply rolling_nan_before; exact Hi|].
    intros _ Hp i x. apply rolling_std_nan_small. exact Hp.
  - split.
    + intros i x Hi Hx.
      apply band_lookup in Hx as (m & s0 & Hm & _ & ->).
      rewrite (rolling_nan_before _ _ _ _ _ Hi Hm). reflexivity.
    + intros _ Hp i x Hx.
      apply band_lookup in Hx as (m & s0 & _ & Hs & ->).
      rewrite (rolling_std_nan_small _ _ _ _ _ Hp Hs).
      destruct m; reflexivity.
  - split.
    + intros i x Hi Hx.
      apply band_lookup in Hx as (m & s0 & Hm & _ & ->).
      rewrite (rolling_nan_before _ _ _ _ _ Hi Hm). reflexivity.
    + intros _ Hp i x Hx.
      apply band_lookup in Hx as (m & s0 & _ & Hs & ->).
      rewrite (rolling_std_nan_small _ _ _ _ _ Hp Hs).
      destruct m; reflexivity.
Qed.

Lemma bollinger_warm_up_witness :
  exists h' s,
    calculate_bollinger_bands Sample.sqrt 1%positive 3 2
      (Sample.closes [1; 2]) = (Ok 1%positive, h') /\
    (h' !!! 1%positive) !! "upper_band" = Some s /\
    s = [NaN; NaN].
Proof.
  destruct (bollinger_warm_up Sample.sqrt 1%positive 3 2
              (Sample.closes [1; 2]) (Fin <$> [1; 2]))
    as (h' & Hrun & Hcols); [reflexivity|].
  destruct (Hcols "upper_band") as (s & Hs & Hlen & Hnan & _).
  { do 2 apply list_elem_of_further. apply list_elem_of_here. }
  exists h', s. split; [exact Hrun|]. split; [exact Hs|].
  destruct s as [|a [|b [|c s]]]; try discriminate Hlen.
  rewrite (Hnan 0%nat a ltac:(lia) eq_refl).
  rewrite (Hnan 1%nat b ltac:(lia) eq_refl). reflexivity.
Defined.

(** X5. With a non-negative [std_dev] (and a square root that is never
    negative) the bands are ordered wherever they are numbers:
    [lower_band <= sma <= upper_band]. *)
Theorem bollinger_band_order sqrt data period std_dev h close h' sma up lo
    i m u l :
  (forall v, 0 <= sqrt v) ->
  0 <= std_dev ->
  (h !!! data) !! "close" = Some close ->
  calculate_bollinger_bands sqrt data period std_dev h = (Ok data, h') ->
  (h' !!! data) !! "sma" = Some sma ->
  (h' !!! data) !! "upper_band" = Some up ->
  (h' !!! data) !! "lower_band" = Some lo ->
  sma !! i = Some (Fin m) ->
  up !! i = Some (Fin u) ->
  lo !! i = Some (Fin l) ->
  l <= m <= u.
Proof.
  intros Hsqrt Hk Hc Hrun Hsma Hup Hlo Hm Hu Hl.
  destruct (bollinger_columns_lookup sqrt data period std_dev h close Hc)
    as (h'' & Hrun' & Hsma' & _ & Hup' & Hlo').
  rewrite Hrun in Hrun'. injection Hrun' as <-.
  rewrite Hsma in Hsma'. injection Hsma' as ->.
  rewrite Hup in Hup'. injection Hup' as ->.
  rewrite Hlo in Hlo'. injection Hlo' as ->.
  apply band_lookup in Hu as (m1 & s1 & Hm1 & Hs1 & Hu).
  apply band_lookup in Hl as (m2 & s2 & Hm2 & Hs2 & Hl).
  rewrite Hm in Hm1, Hm2. injection Hm1 as <-. injection Hm2 as <-.
  rewrite Hs1 in Hs2. injection Hs2 as <-.
  destruct (rolling_std_value _ _ _ _ _ Hs1) as [-> | (v & ->)];
    [discriminate Hu|].
  simpl in Hu, Hl. injection Hu as ->. injection Hl as ->.
  pose proof (Qmult_le_0_compat _ _ (Hsqrt v) Hk) as Hpos.
  lra.
Qed.

Lemma sample_sqrt_nonneg v : 0 <= Sample.sqrt v.
Proof.
  unfold Sample.sqrt, Qle. cbn [Qnum Qden].
  rewrite Z.mul_0_l, Z.mul_1_r. apply Z.sqrt_nonneg.
Qed.

(** Closes 30, 20, 10 with period 3 and one deviation: mean 20, deviation
    10, bands 10 and 30. *)
Lemma bollinger_band_order_witness :
  exists h' sma up lo,
    calculate_bollinger_bands Sample.sqrt 1%positive 3 1
      (Sample.closes [30; 20; 10]) = (Ok 1%positive, h') /\
    (h' !!! 1%positive) !! "sma" = Some sma /\
    (h' !!! 1%positive) !! "upper_band" = Some up /\
    (h' !!! 1%positive) !! "lower_band" = Some lo /\
    sma !! 2%nat = Some (Fin (60 # 3)) /\
    up !! 2%nat = Some (Fin (90 # 3)) /\
    lo !! 2%nat = Some (Fin (30 # 3)) /\
    (30 # 3) <= (60 # 3) <= (90 # 3).
Proof.
  destruct (bollinger_columns_lookup Sample.sqrt 1%positive 3 1
              (Sample.closes [30; 20; 10]) (Fin <$> [30; 20; 10]) eq_refl)
    as (h' & Hrun & Hsma & _ & Hup & Hlo).
  cbv zeta in Hsma, Hup, Hlo.
  assert (rolling_mean 3 (Fin <$> [30; 20; 10]) !! 2%nat
          = Some (Fin (60 # 3))) as Hm by (vm_compute; reflexivity).
  assert (zip_with Fl.add (rolling_mean 3 (Fin <$> [30; 20; 10]))
            (scale 1 (rolling_std Sample.sqrt 3 (Fin <$> [30; 20; 10])))
            !! 2%nat = Some (Fin (90 # 3))) as Hu
    by (vm_compute; reflexivity).
  assert (zip_with Fl.sub (rolling_mean 3 (Fin <$> [30; 20; 10]))
            (scale 1 (rolling_std Sample.sqrt 3 (Fin <$> [30; 20; 10])))
            !! 2%nat = Some (Fin (30 # 3))) as Hl
    by (vm_compute; reflexivity).
  eexists h', _, _, _.
  split; [exact Hrun|]. split; [exact Hsma|]. split; [exact Hup|].
  split; [exact Hlo|].
  split; [exact Hm|]. split; [exact Hu|]. split; [exact Hl|].
  apply (bollinger_band_order Sample.sqrt 1%positive 3 1
           (Sample.closes [30; 20; 10]) (Fin <$> [30; 20; 10]) h'
           _ _ _ 2%nat (60 # 3) (90 # 3) (30 # 3)
           sample_sqrt_nonneg ltac:(discriminate) eq_refl Hrun
           Hsma Hup Hlo Hm Hu Hl).
Defined.

(** ** The precision and the rounding of the quantity *)

Lemma find_precision_spec x : forall fuel n,
  10 ^ (2 * n - 1) <= x ->
  x < 10 ^ (2 * (n + Z.of_nat fuel) + 1) ->
  10 ^ (2 * find_precision fuel n x - 1) <= x /\
  x < 10 ^ (2 * find_precision fuel n x + 1).
Proof.
  induction fuel as [|fuel IH]; intros n Hlo Hhi; simpl.
  - replace (n + Z.of_nat 0)%Z with n in Hhi by lia. split; assumption.
  - destruct (Qltb x (10 ^ (2 * n + 1))) eqn:Hlt.
    + apply Qltb_lt in Hlt. split; assumption.
    + apply Qltb_ge in Hlt. apply IH.
      * replace (2 * (n + 1) - 1)%Z with (2 * n + 1)%Z by lia. exact Hlt.
      * replace (n + 1 + Z.of_nat fuel)%Z with (n + Z.of_nat (S fuel))%Z
          by lia.
        exact Hhi.
Qed.

(** A positive rational lies between the powers of two given by the sizes
    of its numerator and denominator. *)
Lemma digits_bound_spec s :
  0 < s ->
  let T := inject_Z (2 ^ digits_bound s) in
  (1 <= digits_bound s)%Z /\ 0 < T /\ 1 < s * T /\ s < T.
Proof.
  intros Hpos. cbv zeta. unfold digits_bound.
  destruct s as [a d]. unfold Qlt in Hpos. cbn [Qnum Qden] in *.
  rewrite Z.mul_0_l, Z.mul_1_r in Hpos.
  pose proof (Z.log2_nonneg a) as Hla.
  pose proof (Z.log2_nonneg (Zpos d)) as Hld.
  destruct (Z.log2_spec a Hpos) as [_ Ha].
  destruct (Z.log2_spec (Zpos d) ltac:(lia)) as [_ Hd].
  set (b := (Z.log2 a + Z.log2 (Zpos d) + 1)%Z) in *.
  assert (2 ^ Z.succ (Z.log2 a) <= 2 ^ b)%Z
    by (apply Z.pow_le_mono_r; lia).
  assert (2 ^ Z.succ (Z.log2 (Zpos d)) <= 2 ^ b)%Z
    by (apply Z.pow_le_mono_r; lia).
  assert (0 < 2 ^ b)%Z by (apply Z.pow_pos_nonneg; lia).
  split; [lia|].
  unfold Qlt, Qmult, inject_Z. cbn [Qnum Qden].
  rewrite ?Z.mul_0_l, ?Z.mul_1_r, ?Z.mul_1_l, ?Pos.mul_1_r.
  split; [lia|]. split; nia.
Qed.

Lemma two_pow_le_ten_pow b :
  (1 <= b)%Z ->
  inject_Z (2 ^ b) * inject_Z (2 ^ b) <= 10 ^ (2 * b + 1).
Proof.
  intros Hb. change 10 with (inject_Z 10).
  rewrite <- Zpower_Qpower by lia. rewrite <- inject_Z_mult.
  rewrite <- Zle_Qle.
  replace (2 * b + 1)%Z with (b + b + 1)%Z by lia.
  rewrite !Z.pow_add_r, Z.pow_1_r by lia.
  assert (2 ^ b <= 10 ^ b)%Z by (apply Z.pow_le_mono_l; lia).
  assert (0 < 2 ^ b)%Z by (apply Z.pow_pos_nonneg; lia).
  nia.
Qed.

Lemma nearest_neg_log10_spec s :
  0 < s ->
  10 ^ (2 * nearest_neg_log10 s - 1) <= / (s * s) /\
  / (s * s) < 10 ^ (2 * nearest_neg_log10 s + 1).
Proof.
  intros Hpos. unfold nearest_neg_log10.
  destruct (digits_bound_spec s Hpos) as (Hb & HT & Hlo & Hhi).
  set (b := digits_bound s) in *.
  set (T := inject_Z (2 ^ b)) in *.
  pose proof (two_pow_le_ten_pow b Hb) as Hten. fold T in Hten.
  assert (0 < s * s) as Hss by nra.
  assert (0 < T * T) as HTT by nra.
  apply find_precision_spec.
  - replace (2 * - b - 1)%Z with (- (2 * b + 1))%Z by lia.
    rewrite Qpower_opp.
    pose proof (pow10_pos (2 * b + 1)) as HP.
    apply Qle_shift_inv_l; [assumption|].
    assert (s * s <= 10 ^ (2 * b + 1)) as Hle by nra.
    apply (Qmult_le_l _ _ (/ 10 ^ (2 * b + 1))) in Hle;
      [|apply Qinv_lt_0_compat; exact HP].
    rewrite (Qmult_comm (/ _) (10 ^ _)), Qmult_inv_r in Hle by lra.
    exact Hle.
  - replace (2 * (- b + Z.of_nat (Z.to_nat (2 * b))) + 1)%Z
      with (2 * b + 1)%Z by lia.
    apply Qlt_le_trans with (T * T); [|exact Hten].
    apply Qlt_shift_inv_r; [assumption|]. nra.
Qed.

(** The odd powers of ten bracket a number in one way only. *)
Lemma pow10_bracket_unique x n k :
  10 ^ (2 * n - 1) <= x -> x < 10 ^ (2 * n + 1) ->
  10 ^ (2 * k - 1) <= x -> x < 10 ^ (2 * k + 1) ->
  n = k.
Proof.
  intros Hn1 Hn2 Hk1 Hk2.
  assert (10 ^ (2 * n - 1) < 10 ^ (2 * k + 1)) as H1 by lra.
  assert (10 ^ (2 * k - 1) < 10 ^ (2 * n + 1)) as H2 by lra.
  apply Qpower_lt_compat_l_inv in H1; [|lra].
  apply Qpower_lt_compat_l_inv in H2; [|lra].
  lia.
Qed.

(** A step within the rounding of a double (a relative [2^-53]) of
    [10^-k], as the double nearest to that power of ten is, has the
    precision [k]. *)
Lemma lot_precision_near_pow10 s k :
  Qabs (s - 10 ^ (- k)) <= 10 ^ (- k) * (1 # 9007199254740992) ->
  lot_precision s = Ok k.
Proof.
  intros Hnear.
  pose proof (pow10_pos (- k)) as HP.
  pose proof (pow10_pos k) as HQ.
  assert (10 ^ (- k) * 10 ^ k == 1) as HPQ.
  { rewrite <- Qpower_plus by lra. replace (- k + k)%Z with 0%Z by lia.
    reflexivity. }
  apply Qabs_Qle_condition in Hnear. destruct Hnear as [Hlo Hhi].
  set (P := 10 ^ (- k)) in *. set (T := 10 ^ k) in *.
  assert (0 < s) as Hpos by nra.
  unfold lot_precision.
  assert (Qleb s 0 = false) as ->.
  { destruct (Qleb s 0) eqn:Hle; [|reflexivity].
    apply Qleb_le in Hle. lra. }
  f_equal.
  destruct (nearest_neg_log10_spec s Hpos) as [Hn1 Hn2].
  apply (pow10_bracket_unique (/ (s * s))); try assumption.
  - replace (2 * k - 1)%Z with (k + k + -1)%Z by lia.
    rewrite !Qpower_plus by lra. fold T.
    change (10 ^ (-1)) with (1 # 10).
    apply Qle_shift_inv_l; [nra|].
    assert (s * T <= 1 + (1 # 9007199254740992)) as Hst by nra.
    assert (0 < s * T) by nra.
    nra.
  - replace (2 * k + 1)%Z with (k + k + 1)%Z by lia.
    rewrite !Qpower_plus by lra. fold T.
    change (10 ^ 1) with 10.
    apply Qlt_shift_inv_r; [nra|].
    assert (1 - (1 # 9007199254740992) <= s * T) as Hst by nra.
    nra.
Qed.

(** X6. The precision computed on line 166.  A step size that is a power
    of ten [10^-k] up to the rounding of a double (a relative [2^-53], as
    for the double nearest to 0.001) gives the precision [k]; a step size
    that is zero or negative is outside the domain of [math.log10], which
    raises [ValueError]. *)
Theorem precision_of_decimal_step step_size :
  (forall k,
     Qabs (step_size - 10 ^ (- k)) <= 10 ^ (- k) * (1 # 9007199254740992) ->
     lot_precision step_size = Ok k) /\
  (step_size <= 0 -> lot_precision step_size = Raise ValueError).
Proof.
  split.
  - intros k. apply lot_precision_near_pow10.
  - intros Hle. unfold lot_precision.
    apply Qleb_le in Hle. rewrite Hle. reflexivity.
Qed.

(** The double nearest to 0.001: precision 3. *)
Lemma precision_of_decimal_step_witness :
  lot_precision (1152921504606847 # 1152921504606846976) = Ok 3%Z.
Proof.
  destruct (precision_of_decimal_step
              (1152921504606847 # 1152921504606846976)) as [Hk _].
  apply (Hk 3%Z). vm_compute. discriminate.
Defined.

(** C2, amended.  For a step size that is a power of ten [10^-k] up to the
    rounding of a double, the normalized quantity is [round(quantity, k)]:
    a multiple of [10^-k], at most half of [10^-k] away from the desired
    quantity, above it or below it; both up to one unit in the last place
    of the double returned (a relative [2^-52]).  It is not the desired
    quantity rounded down. *)
Theorem round_to_step_nearest_decimal quantity step_size k :
  Qabs (step_size - 10 ^ (- k)) <= 10 ^ (- k) * (1 # 9007199254740992) ->
  exists r,
    round_to_step quantity step_size = Ok r /\
    r = pyround quantity k /\
    (exists n : Z,
       Qabs (r - inject_Z n * 10 ^ (- k))
       <= Qabs r * (1 # 4503599627370496)) /\
    Qabs (r - quantity)
    <= 10 ^ (- k) / 2 + Qabs r * (1 # 4503599627370496).
Proof.
  intros Hs. unfold round_to_step.
  rewrite (lot_precision_near_pow10 _ _ Hs).
  exists (pyround quantity k). split; [reflexivity|].
  split; [reflexivity|].
  destruct (pyround_near quantity k) as [[n Hn] Hnear].
  pose proof (Qabs_nonneg (pyround quantity k)) as Hr.
  assert (0 <= Qabs (pyround quantity k) * (1 # 4503599627370496)) as Hslack
    by (apply Qmult_le_0_compat; [exact Hr|discriminate]).
  split; [|lra].
  exists n.
  assert (pyround quantity k - inject_Z n * 10 ^ (- k) == 0) as ->
    by (rewrite Hn; ring).
  exact Hslack.
Qed.

(** The doubles nearest to 0.0016 and to 0.001: the quantity becomes 0.002,
    above the input. *)
Lemma round_to_step_nearest_decimal_witness :
  exists r,
    round_to_step (7378697629483821 # 4611686018427387904)
      (1152921504606847 # 1152921504606846976) = Ok r /\
    r == 0.002 /\
    (7378697629483821 # 4611686018427387904) < r.
Proof.
  destruct (round_to_step_nearest_decimal
              (7378697629483821 # 4611686018427387904)
              (1152921504606847 # 1152921504606846976) 3)
    as (r & Hrun & -> & _ & _); [vm_compute; discriminate|].
  eexists. split; [exact Hrun|].
  split; vm_compute; reflexivity.
Defined.

Lemma round_half_even_comp x y :
  x == y -> round_half_even x = round_half_even y.
Proof.
  intros Hxy. unfold round_half_even.
  rewrite (Qfloor_comp _ _ Hxy).
  rewrite (Qcompare_comp (x - inject_Z (Qfloor y)) (y - inject_Z (Qfloor y))
             ltac:(rewrite Hxy; reflexivity) (1 # 2) (1 # 2)
             ltac:(reflexivity)).
  reflexivity.
Qed.

Lemma round_half_even_integer n : round_half_even (inject_Z n) = n.
Proof.
  unfold round_half_even. rewrite Qfloor_Z.
  destruct (Qcompare (inject_Z n - inject_Z n) (1 # 2)) eqn:Hc;
    [apply Qeq_alt in Hc; lra|reflexivity|apply Qgt_alt in Hc; lra].
Qed.

(** X7. Rounding is idempotent, and leaves a quantity that already is a
    multiple of [10^-ndigits] at its value: [round(round(x, n), n)] is
    [round(x, n)], and [round(x, n) = x] for [x] a multiple of [10^-n]. *)
Theorem pyround_fixes_multiples x k :
  pyround (pyround x k) k = pyround x k /\
  (forall n : Z, x == inject_Z n * 10 ^ (- k) -> pyround x k == x).
Proof.
  pose proof (pow10_pos k) as Hp.
  assert (forall m : Z, inject_Z m / 10 ^ k * 10 ^ k == inject_Z m) as Hm
    by (intros m; field; lra).
  split.
  - unfold pyround.
    rewrite (round_half_even_comp _ _ (Hm _)), round_half_even_integer.
    reflexivity.
  - intros n Hx. unfold pyround.
    assert (x * 10 ^ k == inject_Z n) as Hn.
    { rewrite Hx, Qpower_opp. field. lra. }
    rewrite (round_half_even_comp _ _ Hn), round_half_even_integer.
    rewrite Hx, Qpower_opp. field. lra.
Qed.

Lemma pyround_fixes_multiples_witness :
  pyround 0.002 3 == 0.002.
Proof.
  destruct (pyround_fixes_multiples 0.002 3) as [_ H].
  apply (H 2%Z). reflexivity.
Defined.

(** ** What a confirmed order records *)

Ltac not_executed :=
  try by_handler;
  let H := fresh "H" in
  intros H; injection H as ? ?; subst; discriminate.

(** The path of [execute_buy_order] that returns [True]. *)
Lemma buy_executed g cfg client price w w' :
  execute_buy_order g cfg client price w = (Ok Executed, w') ->
  exists balance info f rest step_size q,
    get_asset_balance client = Ok balance /\
    Qltb balance (min_order_value cfg) = false /\
    Qeqb price 0 = false /\
    get_symbol_info client = Ok info /\
    filter (fun f => filterType f = "LOT_SIZE") info = f :: rest /\
    stepSize f = Some step_size /\
    "math" ∈ g /\
    round_to_step (pymin balance (max_order_value cfg) / price) step_size
      = Ok q /\
    Qltb (q * price) (min_order_value cfg) = false /\
    create_order client SIDE_BUY q = Ok tt /\
    w' = {| self := bought cfg (now client) q price (self w);
            frames := frames w;
            effects := effects w ++
              [Called_get_asset_balance; Called_get_symbol_info;
               Called_create_order SIDE_BUY q] |}.
Proof.
  unfold execute_buy_order, pydiv. run_step.
  destruct (get_asset_balance client) as [balance|e] eqn:Hbal; simpl;
    [|not_executed].
  destruct (Qltb balance (min_order_value cfg)) eqn:Hmin; simpl;
    [not_executed|].
  destruct (Qeqb price 0) eqn:Hprice; simpl; [not_executed|].
  destruct (get_symbol_info client) as [info|e] eqn:Hinfo; simpl;
    [|not_executed].
  destruct (filter _ info) as [|f rest] eqn:Hfilter; simpl; [not_executed|].
  destruct (stepSize f) as [step_size|] eqn:Hstep; simpl; [|not_executed].
  case_bool_decide as Hmath; simpl; [|not_executed].
  destruct (round_to_step _ step_size) as [q|e] eqn:Hround; simpl;
    [|not_executed].
  destruct (Qltb (q * price) (min_order_value cfg)) eqn:Hsmall; simpl;
    [not_executed|].
  destruct (create_order client SIDE_BUY q) as [[]|e] eqn:Horder; simpl;
    [|not_executed].
  intros [= <-].
  exists balance, info, f, rest, step_size, q.
  split_and!; try reflexivity; try assumption.
  rewrite <- !app_assoc. reflexivity.
Qed.

(** The path of [execute_sell_order] that returns [True]. *)
Lemma sell_executed cfg client price w w' :
  execute_sell_order cfg client price w = (Ok Executed, w') ->
  let p := pos (self w) in
  in_position p = true /\
  Qeqb (quantity p * buy_price p) 0 = false /\
  create_order client SIDE_SELL (quantity p) = Ok tt /\
  w' = {| self :=
            sold cfg (now client) price
              ((quantity p * price - quantity p * buy_price p)
               / (quantity p * buy_price p) * 100) (self w);
          frames := frames w;
          effects := effects w ++
            [Called_create_order SIDE_SELL (quantity p)] |}.
Proof.
  unfold execute_sell_order, pydiv. run_step.
  destruct (in_position (pos (self w))) eqn:Hpos; simpl; [|not_executed].
  destruct (create_order client SIDE_SELL _) as [[]|e] eqn:Horder; simpl;
    [|not_executed].
  destruct (Qeqb _ 0) eqn:Hzero; simpl; [not_executed|].
  intros [= <-]. split_and!; reflexivity.
Qed.



(** The path of [execute_sell_order] that records the sale, forwards. *)
Lemma sell_run_executed cfg client price w :
  in_position (pos (self w)) = true ->
  create_order client SIDE_SELL (quantity (pos (self w))) = Ok tt ->
  Qeqb (quantity (pos (self w)) * buy_price (pos (self w))) 0 = false ->
  execute_sell_order cfg client price w =
  (Ok Executed,
   {| self :=
        sold cfg (now client) price
          ((quantity (pos (self w)) * price
            - quantity (pos (self w)) * buy_price (pos (self w)))
           / (quantity (pos (self w)) * buy_price (pos (self w))) * 100)
          (self w);
      frames := frames w;
      effects := effects w ++
        [Called_create_order SIDE_SELL (quantity (pos (self w)))] |}).
Proof.
  intros Hpos Horder Hzero. unfold execute_sell_order, pydiv. run_step.
  rewrite Hpos. simpl. rewrite Horder. simpl. rewrite Hzero. reflexivity.
Qed.

Lemma product_nonzero a b : Qeqb (a * b) 0 = false -> ~ a == 0 /\ ~ b == 0.
Proof.
  intros H. apply Qeqb_neq in H.
  split; intros Hz; apply H; rewrite Hz; ring.
Qed.

(** X10. When [execute_sell_order] returns [True]: a position was open,
    with a quantity and a buy price that are not zero; the exchange
    accepted an order for the whole quantity; the position is back to its
    initial value; and exactly one SELL record is appended, whose value,
    profit and profit percentage are the expressions of lines 224-227:
    [quantity * price], [sell_value - buy_value] and
    [profit / buy_value * 100].  For a quantity that is not negative and
    values below [2^1023], which do not overflow a double, the profit
    recorded is never negative on a sale at or above the buy price, and
    never positive on a sale at or below it. *)
Theorem sell_success_records_profit cfg client price w w' :
  execute_sell_order cfg client price w = (Ok Executed, w') ->
  let p := pos (self w) in
  let buy_value := quantity p * buy_price p in
  let sell_value := quantity p * price in
  let profit := sell_value - buy_value in
  in_position p = true /\
  ~ quantity p == 0 /\ ~ buy_price p == 0 /\
  create_order client SIDE_SELL (quantity p) = Ok tt /\
  pos (self w') = pos init /\
  effects w' = effects w ++ [Called_create_order SIDE_SELL (quantity p)] /\
  transactions (self w') = transactions (self w) ++
    [{| tx_type_of := SELL; tx_timestamp := now client;
        tx_symbol := trading_pair cfg; tx_price := price;
        tx_quantity := quantity p; tx_value := sell_value;
        tx_profit := Some profit;
        tx_profit_percent := Some (profit / buy_value * 100) |}] /\
  (0 <= quantity p -> buy_price p <= price -> sell_value <= 2 ^ 1023 ->
   0 <= profit) /\
  (0 <= quantity p -> price <= buy_price p -> buy_value <= 2 ^ 1023 ->
   profit <= 0).
Proof.
  intros Hrun. cbv zeta.
  destruct (sell_executed _ _ _ _ _ Hrun) as (Hpos & Hzero & Horder & ->).
  destruct (product_nonzero _ _ Hzero) as [Hq Hb].
  split_and!; try reflexivity; try assumption.
  - intros Hq0 Hle _. nra.
  - intros Hq0 Hle _. nra.
Qed.

Lemma sell_success_records_profit_witness :
  exists w' tx profit,
    execute_sell_order Sample.cfg (Sample.overbought (Ok tt)) 31 Sample.long
      = (Ok Executed, w') /\
    transactions (self w') = transactions (self Sample.long) ++ [tx] /\
    tx_profit tx = Some profit /\
    0 <= profit.
Proof.
  assert (exists w',
            execute_sell_order Sample.cfg (Sample.overbought (Ok tt)) 31
              Sample.long = (Ok Executed, w')) as [w' Hrun]
    by (eexists; vm_compute; reflexivity).
  destruct (sell_success_records_profit _ _ _ _ _ Hrun)
    as (_ & _ & _ & _ & _ & _ & Htx & Hgain & _).
  eexists w', _, _. split; [exact Hrun|]. split; [exact Htx|].
  split; [reflexivity|].
  apply Hgain; [discriminate|discriminate|].
  apply Qle_trans with (2 ^ 8); [discriminate|].
  apply Qpower_le_compat_l; [lia|discriminate].
Defined.

(** X11. A buy that succeeds followed by a sell whose order the exchange
    accepts: with a positive [min_order_value] the sell succeeds too, the
    position is back to its initial value, and the transactions have grown
    by one BUY and one SELL of the same quantity [q], the SELL carrying the
    profit [q * sell price - q * buy price], computed from the price the BUY
    recorded. *)
Theorem buy_then_sell_round_trip g cfg c1 c2 p1 p2 w w1 :
  0 < min_order_value cfg ->
  execute_buy_order g cfg c1 p1 w = (Ok Executed, w1) ->
  create_order c2 SIDE_SELL (quantity (pos (self w1))) = Ok tt ->
  exists w2 b s,
    execute_sell_order cfg c2 p2 w1 = (Ok Executed, w2) /\
    pos (self w2) = pos init /\
    transactions (self w2) = transactions (self w) ++ [b; s] /\
    tx_type_of b = BUY /\ tx_type_of s = SELL /\
    tx_price b = p1 /\ tx_price s = p2 /\
    tx_quantity b = quantity (pos (self w1)) /\
    tx_quantity s = tx_quantity b /\
    tx_value b = tx_quantity b * p1 /\
    tx_value s = tx_quantity b * p2 /\
    tx_profit b = None /\
    tx_profit s = Some (tx_quantity b * p2 - tx_quantity b * p1).
Proof.
  intros Hmin Hbuy Horder.
  destruct (buy_executed _ _ _ _ _ _ Hbuy)
    as (balance & info & f & rest & step & q & _ & _ & _ & _ & _ & _ & _ & _
        & Hsmall & _ & ->).
  cbn [self pos quantity bought] in Horder.
  apply Qltb_ge in Hsmall.
  assert (Qeqb (q * p1) 0 = false) as Hzero by (apply Qeqb_neq; lra).
  eexists _, _, _.
  split; [apply sell_run_executed; [reflexivity|exact Horder|exact Hzero]|].
  cbn [self pos quantity buy_price bought sold transactions].
  rewrite <- app_assoc.
  split_and!; reflexivity.
Qed.

Lemma buy_then_sell_round_trip_witness :
  exists w1 w2,
    execute_buy_order ("math" :: module_globals Sample.star) Sample.cfg
      (Sample.oversold 50 (Ok tt)) 10 start = (Ok Executed, w1) /\
    execute_sell_order Sample.cfg (Sample.overbought (Ok tt)) 31 w1
      = (Ok Executed, w2) /\
    pos (self w2) = pos init /\
    tx_type_of <$> transactions (self w2) = [BUY; SELL].
Proof.
  assert (exists w1,
            execute_buy_order ("math" :: module_globals Sample.star)
              Sample.cfg (Sample.oversold 50 (Ok tt)) 10 start
            = (Ok Executed, w1)) as [w1 Hbuy]
    by (eexists; vm_compute; reflexivity).
  destruct (buy_then_sell_round_trip _ Sample.cfg _
              (Sample.overbought (Ok tt)) 10 31 _ _ eq_refl Hbuy eq_refl)
    as (w2 & b & s & Hsell & Hpos & Htxs & Hb & Hs & _).
  exists w1, w2. split; [exact Hbuy|]. split; [exact Hsell|].
  split; [exact Hpos|]. rewrite Htxs. simpl. rewrite Hb, Hs. reflexivity.
Defined.

(** X12. A sell from an open position whose quantity times buy price is
    zero: the order for the quantity is submitted and, when the exchange
    accepts it, the profit percentage then divides by zero; the method
    returns [False] and records nothing, so the position stays open after
    the exchange has executed the sale. *)
Theorem sell_with_zero_buy_value cfg client price w :
  in_position (pos (self w)) = true ->
  quantity (pos (self w)) * buy_price (pos (self w)) == 0 ->
  create_order client SIDE_SELL (quantity (pos (self w))) = Ok tt ->
  exists w',
    execute_sell_order cfg client price w
      = (Ok (UnknownError ZeroDivisionError), w') /\
    self w' = self w /\
    effects w' = effects w ++
      [Called_create_order SIDE_SELL (quantity (pos (self w)))].
Proof.
  intros Hpos Hzero Horder. apply Qeqb_eq in Hzero.
  eexists. split.
  - unfold execute_sell_order, pydiv. run_step.
    rewrite Hpos. simpl. rewrite Horder. simpl. rewrite Hzero. reflexivity.
  - split; reflexivity.
Qed.

(** With [min_order_value] 0 and an empty balance the buy goes through for
    the quantity 0; no sell can close that position. *)
Lemma sell_with_zero_buy_value_witness :
  in_position (pos (self Edge.empty_long)) = true /\
  exists w',
    execute_sell_order Edge.cfg (Sample.overbought (Ok tt)) 31
      Edge.empty_long = (Ok (UnknownError ZeroDivisionError), w') /\
    self w' = self Edge.empty_long.
Proof.
  assert (in_position (pos (self Edge.empty_long)) = true) as Hpos
    by (vm_compute; reflexivity).
  split; [exact Hpos|].
  destruct (sell_with_zero_buy_value Edge.cfg (Sample.overbought (Ok tt)) 31
              Edge.empty_long Hpos)
    as (w' & Hrun & Hself & _);
    [vm_compute; reflexivity|reflexivity|].
  exists w'. split; [exact Hrun|exact Hself].
Defined.

(** ** Invariants of the trading loop *)

Lemma count_effects_app kind es1 es2 :
  count_effects kind (es1 ++ es2)
  = (count_effects kind es1 + count_effects kind es2)%nat.
Proof.
  unfold count_effects. rewrite List.filter_app, length_app. reflexivity.
Qed.

(** What a call of [execute_buy_order] does to the outside: at most one
    order, never a write. *)
Lemma buy_effects g cfg client price w :
  exists o w' es,
    execute_buy_order g cfg client price w = (Ok o, w') /\
    effects w' = effects w ++ es /\
    (count_effects is_order es <= 1)%nat /\
    count_effects is_write es = 0%nat.
Proof.
  unfold execute_buy_order. run_step.
  repeat destruct_inner; try by_handler;
    eexists _, _, _; (split; [reflexivity|]); simpl;
    (split; [first [rewrite <- ?app_assoc; reflexivity
                   |symmetry; apply app_nil_r]|]);
    unfold count_effects; simpl; lia.
Qed.

Lemma position_wf_step sqrt g cfg client w :
  position_wf cfg (pos (self w)) ->
  position_wf cfg (pos (self (analyze_and_trade sqrt g cfg client w).2)).
Proof.
  intros Hwf.
  destruct (analyze_and_trade_run sqrt g cfg client w)
    as (r & w' & es & -> & _ & Hend). simpl.
  inversion Hend as [? ? ? Hself _
                    |? Hself
                    |price o w1 w2 es2 ? _ _ Hself1 Hbuy _ Hself2
                    |price o w1 w2 es2 ? _ _ Hself1 Hsell _ Hself2]; subst;
    try (rewrite Hself; exact Hwf).
  - rewrite Hself2.
    destruct (buy_cases g cfg client price w1)
      as (o' & w2' & Hbuy' & _ & _ & Hcase).
    rewrite Hbuy in Hbuy'. injection Hbuy' as <- <-.
    destruct Hcase as [[_ ->] | (-> & _)]; [rewrite Hself1; exact Hwf|].
    destruct (buy_executed _ _ _ _ _ _ Hbuy)
      as (? & ? & ? & ? & ? & q & _ & _ & Hprice & _ & _ & _ & _ & _
          & Hsmall & _ & ->).
    unfold position_wf. simpl. split.
    + apply Qltb_ge. exact Hsmall.
    + apply Qeqb_neq. exact Hprice.
  - rewrite Hself2.
    destruct (sell_cases cfg client price w1)
      as (o' & w2' & Hsell' & _ & _ & Hcase).
    rewrite Hsell in Hsell'. injection Hsell' as <- <-.
    destruct Hcase as [[_ ->] | (_ & _ & _ & pp & ->)];
      [rewrite Hself1; exact Hwf|].
    unfold position_wf. simpl. split; reflexivity.
Qed.

Lemma position_wf_cycles sqrt g cfg clients : forall w,
  position_wf cfg (pos (self w)) ->
  position_wf cfg (pos (self (cycles sqrt g cfg clients w).2)).
Proof.
  induction clients as [|client rest IH]; intros w Hwf; simpl;
    [exact Hwf|].
  unfold bind.
  pose proof (position_wf_step sqrt g cfg client w Hwf) as Hstep.
  destruct (analyze_and_trade sqrt g cfg client w) as [[[]|e] w1];
    simpl in *; [apply IH; exact Hstep|exact Hstep].
Qed.

(** X13. After any number of trading cycles from the initial state, a
    closed position has quantity 0 and buy price 0, and an open one is
    worth at least [min_order_value] at a buy price that is not zero.
    Hence, with a positive [min_order_value], a sell of an open position
    whose order the exchange accepts always records the sale: the division
    by the buy value cannot fail. *)
Theorem position_stays_well_formed sqrt g cfg clients :
  let w := (cycles sqrt g cfg clients start).2 in
  position_wf cfg (pos (self w)) /\
  (0 < min_order_value cfg ->
   in_position (pos (self w)) = true ->
   forall client price,
     create_order client SIDE_SELL (quantity (pos (self w))) = Ok tt ->
     exists w', execute_sell_order cfg client price w = (Ok Executed, w')).
Proof.
  cbv zeta.
  assert (position_wf cfg (pos (self (cycles sqrt g cfg clients start).2)))
    as Hwf by (apply position_wf_cycles; split; reflexivity).
  split; [exact Hwf|].
  intros Hmin Hpos client price Horder.
  unfold position_wf in Hwf. rewrite Hpos in Hwf. destruct Hwf as [Hval _].
  eexists. apply sell_run_executed; [exact Hpos|exact Horder|].
  apply Qeqb_neq. lra.
Qed.

Lemma position_stays_well_formed_witness :
  let w :=
    (cycles Sample.sqrt ("math" :: module_globals Sample.star) Sample.cfg
       [Sample.oversold 50 (Ok tt)] start).2 in
  in_position (pos (self w)) = true /\
  exists w',
    execute_sell_order Sample.cfg (Sample.overbought (Ok tt)) 31 w
    = (Ok Executed, w').
Proof.
  cbv zeta.
  assert (in_position
            (pos (self (cycles Sample.sqrt
                          ("math" :: module_globals Sample.star) Sample.cfg
                          [Sample.oversold 50 (Ok tt)] start).2)) = true)
    as Hpos by (vm_compute; reflexivity).
  split; [exact Hpos|].
  destruct (position_stays_well_formed Sample.sqrt
              ("math" :: module_globals Sample.star) Sample.cfg
              [Sample.oversold 50 (Ok tt)]) as [_ Hsell].
  apply (Hsell eq_refl Hpos (Sample.overbought (Ok tt)) 31). reflexivity.
Defined.

Lemma ledger_step_prefix cfg client b b' :
  ledger_step cfg client b b' ->
  transactions b `prefix_of` transactions b' /\
  (length (transactions b') <= S (length (transactions b)))%nat.
Proof.
  intros [-> | [(_ & q & price & ->) | (_ & price & pp & ->)]]; simpl.
  - split; [reflexivity|lia].
  - split; [apply prefix_app_r; reflexivity|].
    rewrite length_app. simpl. lia.
  - split; [apply prefix_app_r; reflexivity|].
    rewrite length_app. simpl. lia.
Qed.

(** X14. The transactions are append-only: after any number of cycles, from
    any state, the list is the earlier list followed by at most one new
    record per cycle; no record is ever changed or removed. *)
Theorem transactions_append_only sqrt g cfg clients w :
  let w' := (cycles sqrt g cfg clients w).2 in
  transactions (self w) `prefix_of` transactions (self w') /\
  (length (transactions (self w'))
   <= length (transactions (self w)) + length clients)%nat.
Proof.
  cbv zeta. revert w.
  induction clients as [|client rest IH]; intros w; simpl.
  - split; [reflexivity|lia].
  - unfold bind.
    pose proof (analyze_and_trade_step sqrt g cfg client w) as Hstep.
    apply ledger_step_prefix in Hstep. destruct Hstep as [Hpre Hlen].
    destruct (analyze_and_trade sqrt g cfg client w) as [[[]|e] w1];
      simpl in *.
    + destruct (IH w1) as [Hpre' Hlen'].
      split; [etrans; eassumption|lia].
    + split; [exact Hpre|lia].
Qed.

Lemma count_effects_none kind es e :
  count_effects kind es = 0%nat -> e ∈ es -> kind e = false.
Proof.
  unfold count_effects. intros Hcount Hin.
  destruct (kind e) eqn:Hkind; [|reflexivity].
  apply list_elem_of_In in Hin.
  assert (In e (List.filter kind es)) as Hf
    by (apply List.filter_In; split; assumption).
  destruct (List.filter kind es); [destruct Hf|discriminate Hcount].
Qed.

(** The effects of one cycle: either it ends before the signal with the
    ledger as it was, or it ends with the write of the transactions, after
    the effects [es2] of at most one order execution. *)
Lemma cycle_effects sqrt g cfg client w :
  exists r w' es,
    analyze_and_trade sqrt g cfg client w = (r, w') /\
    effects w' = effects w ++ es /\
    ((self w' = self w /\
      (es = [Called_get_historical_klines] \/
       es = [Called_get_historical_klines; Called_get_symbol_ticker])) \/
     (r = Ok tt /\
      exists es2,
        es = [Called_get_historical_klines; Called_get_symbol_ticker]
             ++ es2 ++ [Wrote_transactions (transactions (self w'))] /\
        (count_effects is_order es2 <= 1)%nat /\
        count_effects is_write es2 = 0%nat /\
        (count_effects is_order es2 = 0%nat -> self w' = self w))).
Proof.
  destruct (analyze_and_trade_run sqrt g cfg client w)
    as (r & w' & es & Hrun & Heff & Hend).
  exists r, w', es. split; [exact Hrun|]. split; [exact Heff|].
  inversion Hend as [? ? ? Hself Hes
                    |? Hself
                    |price o w1 w2 es2 ? _ _ Hself1 Hbuy Heff2 Hself2
                    |price o w1 w2 es2 ? _ _ Hself1 Hsell Heff2 Hself2];
    subst.
  - left. split; assumption.
  - right. split; [reflexivity|]. exists []. rewrite Hself.
    split; [reflexivity|]. split; [unfold count_effects; simpl; lia|].
    split; reflexivity.
  - right. split; [reflexivity|]. exists es2. rewrite Hself2.
    split; [reflexivity|].
    destruct (buy_effects g cfg client price w1)
      as (o' & w2' & es' & Hbuy' & Heff' & Horders & Hwrites).
    rewrite Hbuy in Hbuy'. injection Hbuy' as <- <-.
    rewrite Heff2 in Heff'. apply app_inv_head in Heff'. subst es'.
    split; [exact Horders|]. split; [exact Hwrites|].
    intros Hnone. rewrite <- Hself1.
    destruct (buy_cases g cfg client price w1)
      as (o' & w2' & Hbuy' & _ & _ & Hcase).
    rewrite Hbuy in Hbuy'. injection Hbuy' as <- <-.
    destruct Hcase as [[_ Hsame] | (_ & _ & q & _ & _ & Heffq)];
      [exact Hsame|].
    rewrite Heff2 in Heffq. apply app_inv_head in Heffq. subst es2.
    discriminate Hnone.
  - right. split; [reflexivity|]. exists es2. rewrite Hself2.
    split; [reflexivity|].
    destruct (sell_cases cfg client price w1)
      as (o' & w2' & Hsell' & _ & (es' & Heff' & Hes') & Hcase).
    rewrite Hsell in Hsell'. injection Hsell' as <- <-.
    rewrite Heff2 in Heff'. apply app_inv_head in Heff'. subst es'.
    destruct Hes' as [-> | [Hpos ->]].
    + split; [unfold count_effects; simpl; lia|].
      split; [reflexivity|]. intros _. rewrite <- Hself1.
      destruct Hcase as [[_ Hsame] | (-> & _)]; [exact Hsame|].
      destruct (sell_executed _ _ _ _ _ Hsell) as (_ & _ & _ & Hw2).
      rewrite Hw2 in Heff2. simpl in Heff2.
      apply app_inv_head in Heff2. discriminate Heff2.
    + split; [unfold count_effects; simpl; lia|].
      split; [reflexivity|]. intros Hnone. discriminate Hnone.
Qed.

(** X15. One cycle submits at most one order to the exchange, and a cycle
    that submits none leaves position and transactions as they were: the
    ledger never changes without an order. *)
Theorem cycle_submits_at_most_one_order sqrt g cfg client w :
  let es :=
    drop (length (effects w))
      (effects (analyze_and_trade sqrt g cfg client w).2) in
  let w' := (analyze_and_trade sqrt g cfg client w).2 in
  effects w' = effects w ++ es /\
  (count_effects is_order es <= 1)%nat /\
  (count_effects is_order es = 0%nat -> self w' = self w).
Proof.
  cbv zeta.
  destruct (cycle_effects sqrt g cfg client w)
    as (r & w' & es & -> & Heff & Hcase). simpl.
  rewrite Heff, drop_app_length.
  split; [reflexivity|].
  destruct Hcase as [[Hself [-> | ->]]
                    |(_ & es2 & -> & Horders & _ & Hnone)].
  - split; [unfold count_effects; simpl; lia|]. intros _. exact Hself.
  - split; [unfold count_effects; simpl; lia|]. intros _. exact Hself.
  - rewrite !count_effects_app.
    change (count_effects is_order
              [Called_get_historical_klines; Called_get_symbol_ticker])
      with 0%nat.
    change (count_effects is_order
              [Wrote_transactions (transactions (self w'))]) with 0%nat.
    split; [lia|]. intros H. apply Hnone. lia.
Qed.

Lemma cycle_submits_at_most_one_order_witness :
  let w' :=
    (analyze_and_trade Sample.sqrt (module_globals Sample.star) Sample.cfg
       (Sample.oversold 50 (Ok tt)) start).2 in
  count_effects is_order (drop 0 (effects w')) = 0%nat /\ self w' = self start.
Proof.
  cbv zeta.
  assert (count_effects is_order
            (drop 0
               (effects
                  (analyze_and_trade Sample.sqrt (module_globals Sample.star)
                     Sample.cfg (Sample.oversold 50 (Ok tt)) start).2))
          = 0%nat) as Hnone by (vm_compute; reflexivity).
  split; [exact Hnone|].
  destruct (cycle_submits_at_most_one_order Sample.sqrt
              (module_globals Sample.star) Sample.cfg
              (Sample.oversold 50 (Ok tt)) start) as (_ & _ & Hsame).
  apply Hsame. exact Hnone.
Defined.

(** X16. A cycle writes the transaction file at most once; when it does,
    the write is the last thing the cycle does, the cycle returns normally,
    and what is written is the transaction list as the cycle leaves it: file
    and memory agree at the end of every cycle that saves. *)
Theorem cycle_write_is_last_and_current sqrt g cfg client w :
  exists r w' es,
    analyze_and_trade sqrt g cfg client w = (r, w') /\
    effects w' = effects w ++ es /\
    (count_effects is_write es <= 1)%nat /\
    forall txs, Wrote_transactions txs ∈ es ->
      txs = transactions (self w') /\
      last es = Some (Wrote_transactions txs) /\
      r = Ok tt.
Proof.
  destruct (cycle_effects sqrt g cfg client w)
    as (r & w' & es & Hrun & Heff & Hcase).
  exists r, w', es. split; [exact Hrun|]. split; [exact Heff|].
  destruct Hcase as [[Hself [-> | ->]]
                    |(-> & es2 & -> & _ & Hwrites & _)].
  - split; [unfold count_effects; simpl; lia|].
    intros txs Hin. not_an_effect Hin.
  - split; [unfold count_effects; simpl; lia|].
    intros txs Hin. not_an_effect Hin.
  - split.
    + rewrite !count_effects_app, Hwrites. unfold count_effects. simpl. lia.
    + intros txs Hin.
      assert (txs = transactions (self w')) as ->.
      { apply elem_of_app in Hin as [Hin|Hin]; [not_an_effect Hin|].
        apply elem_of_app in Hin as [Hin|Hin].
        - apply (count_effects_none _ _ _ Hwrites) in Hin. discriminate Hin.
        - apply list_elem_of_singleton in Hin. injection Hin as ->.
          reflexivity. }
      split; [reflexivity|]. split; [|reflexivity].
      rewrite app_assoc. apply last_snoc.
Qed.

Lemma cycle_write_is_last_and_current_witness :
  exists r w' es,
    analyze_and_trade Sample.sqrt (module_globals Sample.star) Sample.cfg
      (Sample.oversold 5 (Ok tt)) start = (r, w') /\
    Wrote_transactions [] ∈ es /\
    last es = Some (Wrote_transactions []) /\
    transactions (self w') = [].
Proof.
  destruct (cycle_write_is_last_and_current Sample.sqrt
              (module_globals Sample.star) Sample.cfg
              (Sample.oversold 5 (Ok tt)) start)
    as (r & w' & es & Hrun & Heff & _ & Hwrite).
  exists r, w', es. split; [exact Hrun|].
  assert (effects
            (analyze_and_trade Sample.sqrt (module_globals Sample.star)
               Sample.cfg (Sample.oversold 5 (Ok tt)) start).2
          = [Called_get_historical_klines; Called_get_symbol_ticker;
             Called_get_asset_balance; Wrote_transactions []]) as Hes
    by (vm_compute; reflexivity).
  rewrite Hrun in Hes. simpl in Hes, Heff. rewrite Heff in Hes.
  assert (Wrote_transactions [] ∈ es) as Hin
    by (rewrite Hes; do 3 apply list_elem_of_further;
        apply list_elem_of_here).
  destruct (Hwrite [] Hin) as (Htxs & Hlast & _).
  split; [exact Hin|]. split; [exact Hlast|]. symmetry. exact Htxs.
Defined.

(** ** The main loop *)

(** X17. [run] never lets an exception out, whatever ends the loop, and
    the last thing it does is to write the transactions as they then are;
    started from the initial state, what that last write records agrees
    with the position: the position is open exactly when the buys outnumber
    the sells by one, and then quantity and price are those of the last
    buy. *)
Theorem run_ends_with_consistent_write sqrt g cfg clients :
  exists w',
    run sqrt g cfg clients start = (Ok tt, w') /\
    self w' = self (cycles sqrt g cfg clients start).2 /\
    last (effects w') = Some (Wrote_transactions (transactions (self w'))) /\
    effects (cycles sqrt g cfg clients start).2 `prefix_of` effects w' /\
    ledger_consistent (self w').
Proof.
  unfold run.
  pose proof (cycles_ledger_inv sqrt g cfg clients start ledger_inv_init)
    as Hinv.
  destruct (cycles sqrt g cfg clients start) as [r w1]. simpl in *.
  rewrite save_transactions_run. eexists. split; [reflexivity|]. simpl.
  split; [reflexivity|]. split; [apply last_snoc|].
  split; [apply prefix_app_r; reflexivity|].
  apply ledger_inv_consistent. exact Hinv.
Qed.

(** ** Market data and the indicator phase of a cycle *)

Lemma kline_columns_NoDup : NoDup kline_columns.
Proof. apply (bool_decide_unpack _). vm_compute. reflexivity. Qed.

Lemma frame_of_klines_accepted klines :
  (exists d, frame_of_klines klines = Ok d) <-> klines_accepted klines.
Proof.
  unfold frame_of_klines, klines_accepted.
  assert (forallb open_time_in_range klines = true <->
          Forall (fun row => open_time_in_range row = true) klines) as Htimes.
  { rewrite forallb_forall, Forall_forall.
    split; intros H row Hin; apply H, list_elem_of_In, Hin. }
  destruct klines as [|row rest].
  - destruct (forallb open_time_in_range []) eqn:Hall.
    + split; [|eauto]. intros _. split; [left; reflexivity|constructor].
    + discriminate Hall.
  - destruct (Nat.eqb_spec (width (row :: rest)) 12) as [Hw|Hw].
    + destruct (forallb open_time_in_range (row :: rest)) eqn:Hall.
      * split; [|eauto]. intros _. split; [right; exact Hw|].
        apply Htimes. reflexivity.
      * split; [intros [d Hd]; discriminate Hd|].
        intros [_ Hrows]. apply Htimes in Hrows. discriminate Hrows.
    + split; [intros [d Hd]; discriminate Hd|].
      intros [[Hnil|Hw'] _]; [discriminate Hnil|contradiction].
Qed.

Lemma frame_of_klines_value klines d :
  frame_of_klines klines = Ok d ->
  d = list_to_map (imap (fun j c => (c, map (cell j) klines)) kline_columns).
Proof.
  unfold frame_of_klines.
  destruct (match klines with [] => true | _ :: _ => _ end);
    [|discriminate].
  destruct (forallb open_time_in_range klines); [|discriminate].
  congruence.
Qed.

Lemma frame_of_klines_columns klines d :
  frame_of_klines klines = Ok d ->
  forall j c, kline_columns !! j = Some c ->
    d !! c = Some (map (cell j) klines).
Proof.
  intros Hd j c Hj. rewrite (frame_of_klines_value _ _ Hd).
  apply elem_of_list_to_map_1.
  - exact kline_columns_NoDup.
  - apply list_elem_of_lookup_2 with j.
    rewrite list_lookup_imap, Hj. reflexivity.
Qed.

Lemma frame_of_klines_close klines d :
  frame_of_klines klines = Ok d -> d !! "close" = Some (closes_of klines).
Proof.
  intros Hd. apply (frame_of_klines_columns _ _ Hd 4%nat). reflexivity.
Qed.

Lemma frame_of_klines_len klines d :
  frame_of_klines klines = Ok d -> frame_len d = length klines.
Proof.
  intros Hd. unfold frame_len. rewrite (frame_of_klines_close _ _ Hd).
  apply length_map.
Qed.

Lemma frame_of_klines_only_columns klines d c s :
  frame_of_klines klines = Ok d -> d !! c = Some s ->
  c ∈ kline_columns /\ length s = length klines.
Proof.
  intros Hd Hs. rewrite (frame_of_klines_value _ _ Hd) in Hs.
  apply elem_of_list_to_map_2 in Hs.
  apply list_elem_of_lookup_1 in Hs as [j Hj].
  rewrite list_lookup_imap in Hj.
  destruct (kline_columns !! j) as [c'|] eqn:Hc; [|discriminate].
  injection Hj as <- <-. split; [|apply length_map].
  apply list_elem_of_lookup_2 with j. exact Hc.
Qed.

Lemma frame_of_klines_ok klines :
  klines_accepted klines -> exists d, frame_of_klines klines = Ok d.
Proof. apply frame_of_klines_accepted. Qed.

Lemma frame_of_klines_rows klines d :
  frame_of_klines klines = Ok d -> klines_accepted klines.
Proof. intros Hd. apply frame_of_klines_accepted. eauto. Qed.

Lemma frame_of_klines_raise klines e :
  frame_of_klines klines = Raise e -> ~ klines_accepted klines.
Proof.
  intros Hr Hrows. destruct (frame_of_klines_ok _ Hrows) as [d Hd].
  congruence.
Qed.

Lemma new_frame_run d h :
  new_frame d h = (Ok (fresh (dom h)), <[fresh (dom h) := d]> h).
Proof. reflexivity. Qed.

Lemma len_run data h : len data h = (Ok (frame_len (h !!! data)), h).
Proof. reflexivity. Qed.

Lemma set_col_run data c s h :
  set_col data c s h = (Ok tt, <[data := <[c := s]> (h !!! data)]> h).
Proof. reflexivity. Qed.

Lemma iloc_last_run data h :
  frame_len (h !!! data) <> 0%nat ->
  iloc_last data h = (Ok (omap last (h !!! data)), h).
Proof.
  intros Hn. unfold iloc_last. cbv zeta.
  destruct (Nat.eqb_spec (frame_len (h !!! data)) 0);
    [contradiction|reflexivity].
Qed.

Lemma iloc_last_empty data h :
  frame_len (h !!! data) = 0%nat ->
  iloc_last data h = (Raise IndexError, h).
Proof. intros Hn. unfold iloc_last. cbv zeta. rewrite Hn. reflexivity. Qed.

Lemma row_get_run {S} (latest : gmap string fl) c x (s : S) :
  latest !! c = Some x -> row_get latest c s = (Ok x, s).
Proof. intros H. unfold row_get. rewrite H. reflexivity. Qed.

Lemma fresh_loc_unused (h : heap) : h !! fresh (dom h) = None.
Proof. apply not_elem_of_dom, is_fresh. Qed.

Ltac reduce_world := cbv beta iota; cbn [self frames effects].

(** X18. [get_historical_data] never raises and makes exactly one call,
    for the candles.  It returns [None], the store being as it was, when
    the call fails, when there are candles and the longest of them does not
    have twelve entries, or when an open time is out of the range of a
    timestamp.  Otherwise (shorter candles being padded) it returns a new
    frame, at a reference not used before, of the twelve columns with one
    row per candle, whose [close] column holds the fifth entry of each
    candle, NaN where a candle has none; the frames that existed are
    untouched. *)
Theorem get_historical_data_frame client w :
  exists r w',
    get_historical_data client w = (Ok r, w') /\
    self w' = self w /\
    effects w' = effects w ++ [Called_get_historical_klines] /\
    match r with
    | None =>
        frames w' = frames w /\
        match get_historical_klines client with
        | Ok klines => ~ klines_accepted klines
        | Raise _ => True
        end
    | Some data =>
        exists klines,
          get_historical_klines client = Ok klines /\
          klines_accepted klines /\
          frames w !! data = None /\
          (forall l, l <> data -> frames w' !! l = frames w !! l) /\
          frame_len (frames w' !!! data) = length klines /\
          (frames w' !!! data) !! "close" = Some (closes_of klines) /\
          (forall c, c ∈ kline_columns <->
             is_Some ((frames w' !!! data) !! c)) /\
          (forall c s, (frames w' !!! data) !! c = Some s ->
             length s = length klines)
    end.
Proof.
  unfold get_historical_data, on_frames, try_except, call, emit, modify,
    of_result, ret, bind.
  destruct (get_historical_klines client) as [klines|e]; reduce_world.
  - destruct (frame_of_klines klines) as [d|e] eqn:Hd; reduce_world.
    + rewrite new_frame_run. reduce_world.
      eexists _, _. split; [reflexivity|]. cbn [self frames effects].
      split; [reflexivity|]. split; [reflexivity|].
      exists klines. rewrite lookup_total_insert_eq.
      split; [reflexivity|].
      split; [exact (frame_of_klines_rows _ _ Hd)|].
      split; [apply fresh_loc_unused|].
      split; [intros l Hl; apply lookup_insert_ne; congruence|].
      split; [exact (frame_of_klines_len _ _ Hd)|].
      split; [exact (frame_of_klines_close _ _ Hd)|].
      split.
      * intros c. split.
        -- intros Hin. apply list_elem_of_lookup_1 in Hin as [j Hj].
           rewrite (frame_of_klines_columns _ _ Hd j c Hj). eauto.
        -- intros [s Hs].
           apply (frame_of_klines_only_columns _ _ _ _ Hd Hs).
      * intros c s Hs.
        apply (frame_of_klines_only_columns _ _ _ _ Hd Hs).
    + eexists _, _. split; [reflexivity|]. cbn [self frames effects].
      split; [reflexivity|]. split; [reflexivity|].
      split; [reflexivity|]. exact (frame_of_klines_raise _ _ Hd).
  - eexists _, _. split; [reflexivity|]. cbn [self frames effects].
    split; [reflexivity|]. split; [reflexivity|]. split; [reflexivity|exact I].
Qed.

(** Candles of unequal length make a frame; a candle with an open time out
    of range makes none. *)
Lemma get_historical_data_frame_witness :
  (exists data w',
     get_historical_data (Edge.candles Edge.ragged) start
     = (Ok (Some data), w') /\
     (frames w' !!! data) !! "close" = Some (Fin <$> [30; 20; 10]) /\
     (frames w' !!! data) !! "ignore" = Some [Fin 0; Fin 0; NaN] /\
     frames start !! data = None) /\
  (exists w',
     get_historical_data (Edge.candles Edge.late) start = (Ok None, w') /\
     frames w' = frames start).
Proof.
  split.
  - destruct (get_historical_data_frame (Edge.candles Edge.ragged) start)
      as (r & w' & Hrun & _ & _ & Hr).
    assert ((get_historical_data (Edge.candles Edge.ragged) start).1
            = Ok (Some 1%positive)) as Hdata by (vm_compute; reflexivity).
    assert ((frames (get_historical_data (Edge.candles Edge.ragged) start).2
               !!! 1%positive) !! "ignore" = Some [Fin 0; Fin 0; NaN])
      as Hignore by (vm_compute; reflexivity).
    rewrite Hrun in Hdata, Hignore. simpl in Hdata, Hignore.
    injection Hdata as ->.
    destruct Hr as (klines & Hk & _ & Hnew & _ & _ & Hclose & _).
    injection Hk as <-.
    exists 1%positive, w'. split; [exact Hrun|].
    split; [exact Hclose|]. split; [exact Hignore|exact Hnew].
  - destruct (get_historical_data_frame (Edge.candles Edge.late) start)
      as (r & w' & Hrun & _ & _ & Hr).
    assert ((get_historical_data (Edge.candles Edge.late) start).1
            = Ok None) as Hdata by (vm_compute; reflexivity).
    rewrite Hrun in Hdata. simpl in Hdata. injection Hdata as ->.
    destruct Hr as [Hframes _].
    exists w'. split; [exact Hrun|exact Hframes].
Defined.

Section Observed.

Variable sqrt : Q -> Q.
Variable g : list string.
Variable cfg : config.
Variable client : exchange.

Local Opaque trade_on_signal calculate_rsi calculate_bollinger_bands
  new_frame len iloc_last set_col.

Ltac enter_cycle :=
  rewrite analyze_and_trade_tail;
  unfold get_historical_data, on_frames, try_except, call, emit, modify,
    of_result, ret, bind.

(** Lines 270-273 when the candles cannot be had. *)
Lemma cycle_no_klines w e :
  get_historical_klines client = Raise e ->
  analyze_and_trade sqrt g cfg client w =
  (Ok tt, {| self := self w; frames := frames w;
             effects := effects w ++ [Called_get_historical_klines] |}).
Proof. intros Hk. enter_cycle. rewrite Hk. reflexivity. Qed.

Lemma cycle_malformed_klines w klines e :
  get_historical_klines client = Ok klines ->
  frame_of_klines klines = Raise e ->
  analyze_and_trade sqrt g cfg client w =
  (Ok tt, {| self := self w; frames := frames w;
             effects := effects w ++ [Called_get_historical_klines] |}).
Proof.
  intros Hk Hd. enter_cycle. rewrite Hk. reduce_world. rewrite Hd.
  reflexivity.
Qed.

Lemma cycle_few_klines w klines d :
  get_historical_klines client = Ok klines ->
  frame_of_klines klines = Ok d ->
  (length klines < bollinger_period cfg)%nat ->
  analyze_and_trade sqrt g cfg client w =
  (Ok tt, {| self := self w;
             frames := <[fresh (dom (frames w)) := d]> (frames w);
             effects := effects w ++ [Called_get_historical_klines] |}).
Proof.
  intros Hk Hd Hlen. enter_cycle. rewrite Hk. reduce_world. rewrite Hd.
  reduce_world. rewrite new_frame_run. reduce_world. rewrite len_run.
  reduce_world. rewrite lookup_total_insert_eq, (frame_of_klines_len _ _ Hd).
  destruct (Nat.ltb_spec (length klines) (bollinger_period cfg)); [|lia].
  reflexivity.
Qed.

(** Lines 276-280 on the frame of the candles. *)
Lemma cycle_indicators w klines d :
  get_historical_klines client = Ok klines ->
  frame_of_klines klines = Ok d ->
  (bollinger_period cfg <= length klines)%nat ->
  exists h D,
    D !! "close" = Some (closes_of klines) /\
    D !! "rsi" = Some (rsi_series (closes_of klines) (rsi_period cfg)) /\
    D !! "upper_band"
      = Some (zip_with Fl.add
                (rolling_mean (bollinger_period cfg) (closes_of klines))
                (scale (bollinger_std cfg)
                   (rolling_std sqrt (bollinger_period cfg)
                      (closes_of klines)))) /\
    D !! "lower_band"
      = Some (zip_with Fl.sub
                (rolling_mean (bollinger_period cfg) (closes_of klines))
                (scale (bollinger_std cfg)
                   (rolling_std sqrt (bollinger_period cfg)
                      (closes_of klines)))) /\
    h !!! fresh (dom (frames w)) = D /\
    analyze_and_trade sqrt g cfg client w =
    (let* latest := on_frames (iloc_last (fresh (dom (frames w)))) in
     let* ticker :=
       try_except
         (let* price :=
            call Called_get_symbol_ticker (get_symbol_ticker client) in
          ret (Some price))
         (fun _ => ret None) in
     match ticker with
     | None => ret tt
     | Some current_price =>
         let* rsi := row_get latest "rsi" in
         let* upper_band := row_get latest "upper_band" in
         let* lower_band := row_get latest "lower_band" in
         trade_on_signal g cfg client rsi upper_band lower_band
           current_price
     end)
      {| self := self w; frames := h;
         effects := effects w ++ [Called_get_historical_klines] |}.
Proof.
  intros Hk Hd Hlen.
  pose proof (frame_of_klines_close _ _ Hd) as Hc.
  enter_cycle. rewrite Hk. reduce_world. rewrite Hd. reduce_world.
  rewrite new_frame_run. reduce_world. rewrite len_run. reduce_world.
  rewrite lookup_total_insert_eq, (frame_of_klines_len _ _ Hd).
  destruct (Nat.ltb_spec (length klines) (bollinger_period cfg)) as [?|_];
    [lia|].
  reduce_world.
  rewrite (calculate_rsi_run _ _ _ (closes_of klines))
    by (rewrite lookup_total_insert_eq; exact Hc).
  reduce_world. rewrite set_col_run. reduce_world.
  rewrite lookup_total_insert_eq.
  rewrite (calculate_bollinger_bands_run sqrt _ _ _ _ (closes_of klines))
    by (rewrite lookup_total_insert_eq, lookup_insert_ne by done; exact Hc).
  reduce_world. rewrite lookup_total_insert_eq.
  eexists _, _.
  split; [|split; [|split; [|split; [|split;
    [apply lookup_total_insert_eq|reflexivity]]]]];
    unfold bollinger_columns; cbv zeta.
  - rewrite !lookup_insert_ne by done. exact Hc.
  - rewrite !lookup_insert_ne by done. apply lookup_insert_eq.
  - rewrite lookup_insert_ne by done. apply lookup_insert_eq.
  - apply lookup_insert_eq.
Qed.

(** With candles, enough of them, and a price, the signal is evaluated on
    the last values of the three indicator columns. *)
Lemma analyze_observed w klines rsi ub lb price :
  get_historical_klines client = Ok klines ->
  klines_accepted klines ->
  (bollinger_period cfg <= length klines)%nat ->
  klines <> [] ->
  get_symbol_ticker client = Ok price ->
  last (rsi_series (closes_of klines) (rsi_period cfg)) = Some rsi ->
  last (zip_with Fl.add
          (rolling_mean (bollinger_period cfg) (closes_of klines))
          (scale (bollinger_std cfg)
             (rolling_std sqrt (bollinger_period cfg) (closes_of klines))))
    = Some ub ->
  last (zip_with Fl.sub
          (rolling_mean (bollinger_period cfg) (closes_of klines))
          (scale (bollinger_std cfg)
             (rolling_std sqrt (bollinger_period cfg) (closes_of klines))))
    = Some lb ->
  exists w1,
    analyze_and_trade sqrt g cfg client w
    = trade_on_signal g cfg client rsi ub lb price w1 /\
    self w1 = self w /\
    effects w1 = effects w ++
      [Called_get_historical_klines; Called_get_symbol_ticker].
Proof.
  intros Hk Hrows Hlen Hne Hp Hrsi Hub Hlb.
  destruct (frame_of_klines_ok _ Hrows) as [d Hd].
  destruct (cycle_indicators w klines d Hk Hd Hlen)
    as (h & D & HcD & HrD & HuD & HlD & Hh & ->).
  unfold on_frames, try_except, call, emit, modify, of_result, ret, bind.
  reduce_world.
  rewrite iloc_last_run; rewrite Hh.
  2: { unfold frame_len. rewrite HcD. unfold closes_of.
       rewrite length_map. destruct klines; [contradiction|discriminate]. }
  reduce_world. rewrite Hp. reduce_world.
  rewrite (row_get_run _ "rsi" rsi)
    by (rewrite lookup_omap, HrD; exact Hrsi).
  reduce_world.
  rewrite (row_get_run _ "upper_band" ub)
    by (rewrite lookup_omap, HuD; exact Hub).
  reduce_world.
  rewrite (row_get_run _ "lower_band" lb)
    by (rewrite lookup_omap, HlD; exact Hlb).
  reduce_world.
  eexists. split; [reflexivity|]. split; [reflexivity|].
  cbn [effects]. rewrite <- app_assoc. reflexivity.
Qed.

(** Lines 283-288 when the price cannot be had. *)
Lemma cycle_no_price w klines e :
  get_historical_klines client = Ok klines ->
  klines_accepted klines ->
  (bollinger_period cfg <= length klines)%nat ->
  klines <> [] ->
  get_symbol_ticker client = Raise e ->
  exists w',
    analyze_and_trade sqrt g cfg client w = (Ok tt, w') /\
    self w' = self w /\
    effects w' = effects w ++
      [Called_get_historical_klines; Called_get_symbol_ticker].
Proof.
  intros Hk Hrows Hlen Hne Hp.
  destruct (frame_of_klines_ok _ Hrows) as [d Hd].
  destruct (cycle_indicators w klines d Hk Hd Hlen)
    as (h & D & HcD & _ & _ & _ & Hh & ->).
  unfold on_frames, try_except, call, emit, modify, of_result, ret, bind.
  reduce_world.
  rewrite iloc_last_run; rewrite Hh.
  2: { unfold frame_len. rewrite HcD. unfold closes_of.
       rewrite length_map. destruct klines; [contradiction|discriminate]. }
  reduce_world. rewrite Hp. reduce_world.
  eexists. split; [reflexivity|]. split; [reflexivity|].
  cbn [effects]. rewrite <- app_assoc. reflexivity.
Qed.

(** Line 280 on a frame without rows. *)
Lemma cycle_empty_frame w :
  get_historical_klines client = Ok [] ->
  bollinger_period cfg = 0%nat ->
  exists w',
    analyze_and_trade sqrt g cfg client w = (Raise IndexError, w') /\
    self w' = self w /\
    effects w' = effects w ++ [Called_get_historical_klines].
Proof.
  intros Hk Hbp.
  destruct (cycle_indicators w [] _ Hk eq_refl)
    as (h & D & HcD & _ & _ & _ & Hh & ->); [simpl; lia|].
  unfold on_frames, try_except, call, emit, modify, of_result, ret, bind.
  reduce_world.
  rewrite iloc_last_empty by (rewrite Hh; unfold frame_len; rewrite HcD;
                              reflexivity).
  eexists. split; [reflexivity|]. split; reflexivity.
Qed.

End Observed.

(** ** Cycles that end early *)

(** X19. When the candles cannot be had (the call fails, the longest candle
    does not have twelve entries, an open time is out of the range of a
    timestamp) or are fewer than [bollinger_period], the cycle returns
    normally having done nothing but ask for them: no price query, no
    order, no write of the transaction file, and the ledger is as it
    was. *)
Theorem cycle_without_data sqrt g cfg client w :
  match get_historical_klines client with
  | Ok klines =>
      ~ klines_accepted klines \/
      (length klines < bollinger_period cfg)%nat
  | Raise _ => True
  end ->
  exists w',
    analyze_and_trade sqrt g cfg client w = (Ok tt, w') /\
    self w' = self w /\
    effects w' = effects w ++ [Called_get_historical_klines].
Proof.
  destruct (get_historical_klines client) as [klines|e] eqn:Hk.
  - intros Hbad.
    destruct (frame_of_klines klines) as [d|e] eqn:Hd.
    + destruct Hbad as [Hrows|Hlen].
      * destruct Hrows. exact (frame_of_klines_rows _ _ Hd).
      * rewrite (cycle_few_klines sqrt g cfg client w klines d Hk Hd Hlen).
        eexists. split; [reflexivity|]. split; reflexivity.
    + rewrite (cycle_malformed_klines sqrt g cfg client w klines e Hk Hd).
      eexists. split; [reflexivity|]. split; reflexivity.
  - intros _. rewrite (cycle_no_klines sqrt g cfg client w e Hk).
    eexists. split; [reflexivity|]. split; reflexivity.
Qed.

(** A candle with an open time out of range, and too few candles. *)
Lemma cycle_without_data_witness :
  (exists w',
     analyze_and_trade Sample.sqrt (module_globals Sample.star) Sample.cfg
       (Edge.candles Edge.late) start = (Ok tt, w') /\
     self w' = self start /\
     effects w' = [Called_get_historical_klines]) /\
  (exists w',
     analyze_and_trade Sample.sqrt (module_globals Sample.star)
       {| trading_pair := "BTCUSDT";
          rsi_period := 2; rsi_overbought := 70; rsi_oversold := 30;
          bollinger_period := 4; bollinger_std := 1;
          min_order_value := 10; max_order_value := 100;
          max_loss_percent := 5 |}
       (Edge.candles Edge.ragged) start = (Ok tt, w') /\
     self w' = self start /\
     effects w' = [Called_get_historical_klines]).
Proof.
  split.
  - apply (cycle_without_data Sample.sqrt (module_globals Sample.star)
             Sample.cfg (Edge.candles Edge.late) start).
    left. intros [_ Htimes].
    apply Forall_forall with (x := [10000000000000000; 0; 0; 0; 10; 0; 0; 0;
                                    0; 0; 0; 0]) in Htimes;
      [discriminate Htimes|].
    do 2 apply list_elem_of_further. apply list_elem_of_here.
  - apply (cycle_without_data Sample.sqrt (module_globals Sample.star)
             {| trading_pair := "BTCUSDT";
                rsi_period := 2; rsi_overbought := 70; rsi_oversold := 30;
                bollinger_period := 4; bollinger_std := 1;
                min_order_value := 10; max_order_value := 100;
                max_loss_percent := 5 |}
             (Edge.candles Edge.ragged) start).
    right. simpl. lia.
Defined.

(** Candles of unequal length do not stop the cycle: on [Edge.ragged] it
    goes on to the price, the buy signal, the balance and the step size,
    fails on [math], and ends with the write. *)
Example ragged_candles_cycle_goes_on :
  effects
    (analyze_and_trade Sample.sqrt (module_globals Sample.star) Sample.cfg
       (Edge.candles Edge.ragged) start).2
  = [Called_get_historical_klines; Called_get_symbol_ticker;
     Called_get_asset_balance; Called_get_symbol_info;
     Wrote_transactions []].
Proof. vm_compute. reflexivity. Qed.

(** X20. When the candles make a frame of at least [bollinger_period] rows
    but the price query fails, the cycle returns normally after the two
    queries: no order, no write of the transaction file, and the ledger is
    as it was. *)
Theorem cycle_without_price sqrt g cfg client w klines e :
  get_historical_klines client = Ok klines ->
  klines_accepted klines ->
  (bollinger_period cfg <= length klines)%nat ->
  klines <> [] ->
  get_symbol_ticker client = Raise e ->
  exists w',
    analyze_and_trade sqrt g cfg client w = (Ok tt, w') /\
    self w' = self w /\
    effects w' = effects w ++
      [Called_get_historical_klines; Called_get_symbol_ticker].
Proof. apply cycle_no_price. Qed.

Lemma cycle_without_price_witness :
  exists w',
    analyze_and_trade Sample.sqrt (module_globals Sample.star) Sample.cfg
      {| get_historical_klines := Ok (Sample.kline <$> [30; 20; 10]);
         get_symbol_ticker := Raise BinanceAPIException;
         get_asset_balance := Ok 50;
         get_symbol_info := Ok [];
         create_order := fun _ _ => Ok tt;
         now := 1700000000 |} start = (Ok tt, w') /\
    self w' = self start /\
    effects w' = [Called_get_historical_klines; Called_get_symbol_ticker].
Proof.
  apply (cycle_without_price Sample.sqrt (module_globals Sample.star)
           Sample.cfg _ start (Sample.kline <$> [30; 20; 10])
           BinanceAPIException).
  - reflexivity.
  - split; [right; reflexivity|repeat constructor].
  - simpl. lia.
  - discriminate.
  - reflexivity.
Defined.

(** X21. With [bollinger_period] 0 and an empty list of candles the guard
    of line 271 lets the empty frame through and [data.iloc[-1]] raises
    IndexError out of [analyze_and_trade], after the candle query only;
    [run] catches it, and ends with its final write. *)
Theorem empty_data_raises_index_error sqrt g cfg client w :
  bollinger_period cfg = 0%nat ->
  get_historical_klines client = Ok [] ->
  exists w',
    analyze_and_trade sqrt g cfg client w = (Raise IndexError, w') /\
    self w' = self w /\
    effects w' = effects w ++ [Called_get_historical_klines] /\
    forall rest,
      run sqrt g cfg (client :: rest) w =
      (Ok tt, {| self := self w'; frames := frames w';
                 effects := effects w' ++
                   [Wrote_transactions (transactions (self w'))] |}).
Proof.
  intros Hbp Hk.
  destruct (cycle_empty_frame sqrt g cfg client w Hk Hbp)
    as (w' & Hrun & Hself & Heff).
  exists w'. split; [exact Hrun|]. split; [exact Hself|].
  split; [exact Heff|].
  intros rest. unfold run. simpl. unfold bind. rewrite Hrun.
  apply save_transactions_run.
Qed.

Lemma empty_data_raises_index_error_witness :
  exists w',
    analyze_and_trade Sample.sqrt (module_globals Sample.star)
      {| trading_pair := "BTCUSDT";
         rsi_period := 2; rsi_overbought := 70; rsi_oversold := 30;
         bollinger_period := 0; bollinger_std := 1;
         min_order_value := 10; max_order_value := 100;
         max_loss_percent := 5 |}
      {| get_historical_klines := Ok [];
         get_symbol_ticker := Ok 10;
         get_asset_balance := Ok 50;
         get_symbol_info := Ok [];
         create_order := fun _ _ => Ok tt;
         now := 1700000000 |} start = (Raise IndexError, w') /\
    effects w' = [Called_get_historical_klines].
Proof.
  destruct (empty_data_raises_index_error Sample.sqrt
              (module_globals Sample.star)
              {| trading_pair := "BTCUSDT";
                 rsi_period := 2; rsi_overbought := 70; rsi_oversold := 30;
                 bollinger_period := 0; bollinger_std := 1;
                 min_order_value := 10; max_order_value := 100;
                 max_loss_percent := 5 |}
              {| get_historical_klines := Ok [];
                 get_symbol_ticker := Ok 10;
                 get_asset_balance := Ok 50;
                 get_symbol_info := Ok [];
                 create_order := fun _ _ => Ok tt;
                 now := 1700000000 |} start eq_refl eq_refl)
    as (w' & Hrun & _ & Heff & _).
  exists w'. split; [exact Hrun|exact Heff].
Defined.

Lemma trading_signal_defined cfg p rsi ub lb price :
  position_wf cfg p ->
  exists d, trading_signal cfg p rsi ub lb price = Ok d.
Proof.
  unfold position_wf, trading_signal, pydiv.
  destruct (in_position p); simpl.
  - intros [_ Hbp]. apply Qeqb_neq in Hbp. rewrite Hbp.
    repeat destruct_inner; eauto.
  - intros _. repeat destruct_inner; eauto.
Qed.

Lemma band_length sqrt period k close (f : fl -> fl -> fl) :
  length (zip_with f (rolling_mean period close)
            (scale k (rolling_std sqrt period close)))
  = length close.
Proof.
  unfold scale, rolling_mean, rolling_std.
  rewrite length_zip_with, length_fmap, !length_rolling. lia.
Qed.

Lemma last_defined {A} (l : list A) :
  length l <> 0%nat -> exists x, last l = Some x.
Proof.
  intros Hl. destruct (last l) as [x|] eqn:Hlast; [eauto|].
  apply last_None in Hlast. subst l. contradiction.
Qed.

(** One cycle returns normally when the position is well formed and
    [bollinger_period] is positive. *)
Lemma cycle_returns sqrt g cfg client w :
  (0 < bollinger_period cfg)%nat ->
  position_wf cfg (pos (self w)) ->
  (analyze_and_trade sqrt g cfg client w).1 = Ok tt.
Proof.
  intros Hbp Hwf.
  destruct (get_historical_klines client) as [klines|e] eqn:Hk;
    [|rewrite (cycle_no_klines sqrt g cfg client w e Hk); reflexivity].
  destruct (frame_of_klines klines) as [d|e] eqn:Hd;
    [|rewrite (cycle_malformed_klines sqrt g cfg client w klines e Hk Hd);
      reflexivity].
  destruct (Nat.lt_ge_cases (length klines) (bollinger_period cfg))
    as [Hlen|Hlen];
    [rewrite (cycle_few_klines sqrt g cfg client w klines d Hk Hd Hlen);
     reflexivity|].
  assert (klines <> []) as Hne by (intros ->; simpl in Hlen; lia).
  pose proof (frame_of_klines_rows _ _ Hd) as Hrows.
  destruct (get_symbol_ticker client) as [price|e] eqn:Hp.
  2: { destruct (cycle_no_price sqrt g cfg client w klines e
                   Hk Hrows Hlen Hne Hp) as (w' & -> & _).
       reflexivity. }
  assert (length (closes_of klines) <> 0%nat) as Hclose
    by (unfold closes_of; rewrite length_map;
        destruct klines; [contradiction|discriminate]).
  destruct (last_defined (rsi_series (closes_of klines) (rsi_period cfg)))
    as [rsi Hrsi]; [rewrite length_rsi_series; exact Hclose|].
  destruct (last_defined
              (zip_with Fl.add
                 (rolling_mean (bollinger_period cfg) (closes_of klines))
                 (scale (bollinger_std cfg)
                    (rolling_std sqrt (bollinger_period cfg)
                       (closes_of klines)))))
    as [ub Hub]; [rewrite band_length; exact Hclose|].
  destruct (last_defined
              (zip_with Fl.sub
                 (rolling_mean (bollinger_period cfg) (closes_of klines))
                 (scale (bollinger_std cfg)
                    (rolling_std sqrt (bollinger_period cfg)
                       (closes_of klines)))))
    as [lb Hlb]; [rewrite band_length; exact Hclose|].
  destruct (analyze_observed sqrt g cfg client w klines rsi ub lb price
              Hk Hrows Hlen Hne Hp Hrsi Hub Hlb) as (w1 & -> & Hself & _).
  pose proof (trade_on_signal_run g cfg client rsi ub lb price w1) as Hrun.
  rewrite <- Hself in Hwf.
  destruct (trading_signal_defined cfg _ rsi ub lb price Hwf) as [dec Hdec].
  rewrite Hdec in Hrun.
  destruct dec; try destruct Hrun as (o & w2 & _ & Hrun); rewrite Hrun;
    reflexivity.
Qed.

(** X22. With a positive [bollinger_period], no cycle of the loop started
    from the initial state ever raises, whatever the exchange answers: call
    failures, malformed candles, NaN indicators and refused orders are all
    absorbed, and the division by the buy price is never by zero.  The loop
    therefore runs every cycle it is given. *)
Theorem cycles_never_raise sqrt g cfg clients :
  (0 < bollinger_period cfg)%nat ->
  (cycles sqrt g cfg clients start).1 = Ok tt.
Proof.
  intros Hbp.
  assert (position_wf cfg (pos (self start))) as Hwf
    by (split; reflexivity).
  revert Hwf. generalize start.
  induction clients as [|client rest IH]; intros w Hwf; simpl;
    [reflexivity|].
  unfold bind.
  pose proof (cycle_returns sqrt g cfg client w Hbp Hwf) as Hret.
  pose proof (position_wf_step sqrt g cfg client w Hwf) as Hstep.
  destruct (analyze_and_trade sqrt g cfg client w) as [r w1].
  simpl in Hret, Hstep. subst r. apply IH. exact Hstep.
Qed.

Lemma cycles_never_raise_witness :
  (cycles Sample.sqrt ("math" :: module_globals Sample.star) Sample.cfg
     [Sample.oversold 50 (Ok tt); Sample.overbought (Ok tt)] start).1
  = Ok tt.
Proof.
  apply (cycles_never_raise Sample.sqrt
           ("math" :: module_globals Sample.star) Sample.cfg).
  simpl. lia.
Defined.

(** ** Signals on undefined indicators *)

Lemma last_rsi_warm_up close period rsi :
  (length close <= period)%nat ->
  last (rsi_series close period) = Some rsi -> rsi = NaN.
Proof.
  intros Hlen Hlast. rewrite last_lookup, length_rsi_series in Hlast.
  assert (close <> []) as Hne.
  { intros ->. discriminate Hlast. }
  apply (rsi_series_warm_up close period _ _) in Hlast; [exact Hlast|].
  destruct close; [contradiction|]. simpl in *. lia.
Qed.

Lemma last_lower_band_undefined sqrt period k close lb :
  (period <= 1)%nat ->
  last (zip_with Fl.sub (rolling_mean period close)
          (scale k (rolling_std sqrt period close))) = Some lb ->
  lb = NaN.
Proof.
  intros Hp Hlast. rewrite last_lookup in Hlast.
  destruct (band_lookup _ _ _ _ _ _ Hlast) as (m & s0 & _ & Hs & ->).
  rewrite (rolling_std_nan_small sqrt period close _ s0 Hp Hs).
  destruct m; reflexivity.
Qed.

Lemma signal_hold_on_nan cfg p rsi ub lb price :
  in_position p = false ->
  rsi = NaN \/ lb = NaN ->
  trading_signal cfg p rsi ub lb price = Ok HOLD.
Proof.
  intros Hpos Hnan. unfold trading_signal. rewrite Hpos.
  destruct Hnan as [-> | ->]; cbn [negb andb Fl.lt Fl.mul];
    [reflexivity|].
  destruct (Fl.lt rsi _); reflexivity.
Qed.

(** X23. While an indicator of the entry condition is undefined the bot
    does not enter: with at most [rsi_period] candles (the RSI is NaN) or
    with [bollinger_period] at most 1 (the standard deviation, hence the
    lower band, is NaN), a cycle with the position closed makes its two
    queries, asks for no balance, submits no order and writes the unchanged
    transactions. *)
Theorem no_entry_while_indicator_undefined sqrt g cfg client w klines price :
  in_position (pos (self w)) = false ->
  get_historical_klines client = Ok klines ->
  klines_accepted klines ->
  (bollinger_period cfg <= length klines)%nat ->
  klines <> [] ->
  get_symbol_ticker client = Ok price ->
  (length klines <= rsi_period cfg)%nat \/ (bollinger_period cfg <= 1)%nat ->
  exists w',
    analyze_and_trade sqrt g cfg client w = (Ok tt, w') /\
    self w' = self w /\
    effects w' = effects w ++
      [Called_get_historical_klines; Called_get_symbol_ticker;
       Wrote_transactions (transactions (self w))].
Proof.
  intros Hpos Hk Hrows Hlen Hne Hp Hundef.
  assert (length (closes_of klines) = length klines) as Hclose
    by (unfold closes_of; apply length_map).
  assert (length klines <> 0%nat) as Hpos_len
    by (destruct klines; [contradiction|discriminate]).
  destruct (last_defined (rsi_series (closes_of klines) (rsi_period cfg)))
    as [rsi Hrsi]; [rewrite length_rsi_series; lia|].
  destruct (last_defined
              (zip_with Fl.add
                 (rolling_mean (bollinger_period cfg) (closes_of klines))
                 (scale (bollinger_std cfg)
                    (rolling_std sqrt (bollinger_period cfg)
                       (closes_of klines)))))
    as [ub Hub]; [rewrite band_length; lia|].
  destruct (last_defined
              (zip_with Fl.sub
                 (rolling_mean (bollinger_period cfg) (closes_of klines))
                 (scale (bollinger_std cfg)
                    (rolling_std sqrt (bollinger_period cfg)
                       (closes_of klines)))))
    as [lb Hlb]; [rewrite band_length; lia|].
  destruct (analyze_observed sqrt g cfg client w klines rsi ub lb price
              Hk Hrows Hlen Hne Hp Hrsi Hub Hlb) as (w1 & -> & Hself & Heff).
  pose proof (trade_on_signal_run g cfg client rsi ub lb price w1) as Hrun.
  rewrite signal_hold_on_nan in Hrun.
  - rewrite Hrun, save_transactions_run. eexists. split; [reflexivity|].
    simpl. split; [exact Hself|]. rewrite Heff, Hself, <- app_assoc.
    reflexivity.
  - rewrite Hself. exact Hpos.
  - destruct Hundef as [Hshort|Hsmall].
    + left. apply (last_rsi_warm_up _ _ _ ltac:(rewrite Hclose; exact Hshort)
                     Hrsi).
    + right. exact (last_lower_band_undefined _ _ _ _ _ Hsmall Hlb).
Qed.

Lemma no_entry_while_indicator_undefined_witness :
  exists w',
    analyze_and_trade Sample.sqrt ("math" :: module_globals Sample.star)
      {| trading_pair := "BTCUSDT";
         rsi_period := 3; rsi_overbought := 70; rsi_oversold := 30;
         bollinger_period := 3; bollinger_std := 1;
         min_order_value := 10; max_order_value := 100;
         max_loss_percent := 5 |}
      (Sample.oversold 50 (Ok tt)) start = (Ok tt, w') /\
    self w' = self start /\
    effects w' =
      [Called_get_historical_klines; Called_get_symbol_ticker;
       Wrote_transactions []].
Proof.
  apply (no_entry_while_indicator_undefined Sample.sqrt
           ("math" :: module_globals Sample.star)
           {| trading_pair := "BTCUSDT";
              rsi_period := 3; rsi_overbought := 70; rsi_oversold := 30;
              bollinger_period := 3; bollinger_std := 1;
              min_order_value := 10; max_order_value := 100;
              max_loss_percent := 5 |}
           (Sample.oversold 50 (Ok tt)) start
           (Sample.kline <$> [30; 20; 10]) 10).
  - reflexivity.
  - reflexivity.
  - split; [right; reflexivity|repeat constructor].
  - simpl. lia.
  - discriminate.
  - reflexivity.
  - left. simpl. lia.
Defined.


